(** * htb-mcp-interface: the remote tool bridge and the view assembler

    A shallow embedding of [app.py]: the Python values that flow through the
    handlers, the bridge [mcp_call] over an abstract protocol session, the
    route handlers as programs of a state and exception monad, and the
    challenge grouping of the event view. *)

From Stdlib Require Import ZArith List String Ascii Bool Lia Permutation.
Import ListNotations.

Local Open Scope string_scope.
Local Open Scope Z_scope.

(** ** Python values *)

(** Hashable values a JSON document can hold: [None], booleans, integers and
    strings.  Fractional numbers are not modelled. *)
Inductive scalar : Type :=
| SNone
| SBool (b : bool)
| SInt (z : Z)
| SStr (s : string).

(** Lists and insertion-ordered dictionaries.  A dictionary is kept as an
    association list in insertion order, because the templates iterate it in
    that order. *)
#[local] Set Warnings "-register-all".
Inductive pyval : Type :=
| PScalar (k : scalar)
| PList (items : list pyval)
| PDict (entries : list (scalar * pyval)).

Definition PNone : pyval := PScalar SNone.
Definition PTrue : pyval := PScalar (SBool true).
Definition PInt (z : Z) : pyval := PScalar (SInt z).
Definition PStr (s : string) : pyval := PScalar (SStr s).

(** Python exceptions: the class name and [str(e)]. *)
Inductive exn : Type :=
| Exn (cls : string) (msg : string).

Definition exn_str (e : exn) : string :=
  match e with Exn _ msg => msg end.

Inductive result (A : Type) : Type :=
| Ok (a : A)
| Raise (e : exn).
Arguments Ok {A} a.
Arguments Raise {A} e.

Definition rbind {A B} (r : result A) (k : A -> result B) : result B :=
  match r with
  | Ok a => k a
  | Raise e => Raise e
  end.

Declare Scope result_scope.
Delimit Scope result_scope with result.
Notation "x <- r ;; k" := (rbind r (fun x => k))
  (at level 100, r at next level, right associativity) : result_scope.

(** *** Equality and hashing of dictionary keys *)

(** The number a key counts as: in Python [True == 1] and [False == 0], and
    equal keys hash alike. *)
Definition scalar_num (k : scalar) : option Z :=
  match k with
  | SBool b => Some (Z.b2z b)
  | SInt z => Some z
  | _ => None
  end.

(** [a == b] on hashable values. *)
Definition scalar_eqb (a b : scalar) : bool :=
  match a, b with
  | SNone, SNone => true
  | SStr s, SStr t => String.eqb s t
  | _, _ =>
      match scalar_num a, scalar_num b with
      | Some x, Some y => Z.eqb x y
      | _, _ => false
      end
  end.

(** [v == k] where the right operand is hashable: a list or a dictionary
    never equals one. *)
Definition py_eqb (v : pyval) (k : scalar) : bool :=
  match v with
  | PScalar a => scalar_eqb a k
  | _ => false
  end.

Definition type_name (v : pyval) : string :=
  match v with
  | PScalar SNone => "NoneType"
  | PScalar (SBool _) => "bool"
  | PScalar (SInt _) => "int"
  | PScalar (SStr _) => "str"
  | PList _ => "list"
  | PDict _ => "dict"
  end.

(** [hash(v)], as a dictionary does before it looks a key up. *)
Definition hashable (v : pyval) : result scalar :=
  match v with
  | PScalar k => Ok k
  | _ => Raise (Exn "TypeError" ("unhashable type: '" ++ type_name v ++ "'"))
  end.

(** *** Dictionaries *)

Definition assoc (V : Type) : Type := list (scalar * V).

Fixpoint lookup {V} (k : scalar) (d : assoc V) : option V :=
  match d with
  | [] => None
  | (k', v) :: d' => if scalar_eqb k' k then Some v else lookup k d'
  end.

(** [d[k] = v]: an equal key keeps its place and its first spelling, a new
    key goes last. *)
Fixpoint store {V} (k : scalar) (v : V) (d : assoc V) : assoc V :=
  match d with
  | [] => [(k, v)]
  | (k', v') :: d' =>
      if scalar_eqb k' k then (k', v) :: d' else (k', v') :: store k v d'
  end.

(** [d[k]] on a [defaultdict]: a missing key is inserted with the default. *)
Definition dd_getitem {V} (default : V) (k : scalar) (d : assoc V)
  : V * assoc V :=
  match lookup k d with
  | Some v => (v, d)
  | None => (default, store k default d)
  end.

Definition keys {V} (d : assoc V) : list scalar := map fst d.

(** [k in ks] for the keys of a dictionary. *)
Definition has_key (k : scalar) (ks : list scalar) : bool :=
  existsb (fun k' => scalar_eqb k' k) ks.

(** *** Operators used by the handlers *)

Definition repr_str (s : string) : string := "'" ++ s ++ "'".

(** [v[key]] for a string key. *)
Definition getitem (v : pyval) (key : string) : result pyval :=
  match v with
  | PDict d =>
      match lookup (SStr key) d with
      | Some x => Ok x
      | None => Raise (Exn "KeyError" (repr_str key))
      end
  | PList _ =>
      Raise (Exn "TypeError" "list indices must be integers or slices, not str")
  | PScalar (SStr _) =>
      Raise (Exn "TypeError" "string indices must be integers, not 'str'")
  | _ =>
      Raise (Exn "TypeError"
               ("'" ++ type_name v ++ "' object is not subscriptable"))
  end.

(** [v.get(key, default)]: only dictionaries have the method. *)
Definition get (v : pyval) (key : string) (default : pyval) : result pyval :=
  match v with
  | PDict d =>
      match lookup (SStr key) d with
      | Some x => Ok x
      | None => Ok default
      end
  | _ =>
      Raise (Exn "AttributeError"
               ("'" ++ type_name v ++ "' object has no attribute 'get'"))
  end.

(** [v[0]]. *)
Definition getitem0 (v : pyval) : result pyval :=
  match v with
  | PList (x :: _) => Ok x
  | PList [] => Raise (Exn "IndexError" "list index out of range")
  | PDict d =>
      match lookup (SInt 0) d with
      | Some x => Ok x
      | None => Raise (Exn "KeyError" "0")
      end
  | PScalar (SStr (String c _)) => Ok (PStr (String c EmptyString))
  | PScalar (SStr EmptyString) =>
      Raise (Exn "IndexError" "string index out of range")
  | _ =>
      Raise (Exn "TypeError"
               ("'" ++ type_name v ++ "' object is not subscriptable"))
  end.

Fixpoint chars (s : string) : list pyval :=
  match s with
  | EmptyString => []
  | String c s' => PStr (String c EmptyString) :: chars s'
  end.

(** The items a [for] loop over [v] visits. *)
Definition iterate (v : pyval) : result (list pyval) :=
  match v with
  | PList l => Ok l
  | PDict d => Ok (map PScalar (keys d))
  | PScalar (SStr s) => Ok (chars s)
  | _ =>
      Raise (Exn "TypeError" ("'" ++ type_name v ++ "' object is not iterable"))
  end.

Fixpoint occurs (needle s : string) : bool :=
  String.prefix needle s
  || match s with
     | EmptyString => false
     | String _ s' => occurs needle s'
     end.

(** [needle in v] for a string [needle]: a key of a dictionary, an item of a
    list, a substring of a string. *)
Definition contains (needle : string) (v : pyval) : result bool :=
  match v with
  | PDict d => Ok (has_key (SStr needle) (keys d))
  | PList l => Ok (existsb (fun x => py_eqb x (SStr needle)) l)
  | PScalar (SStr s) => Ok (occurs needle s)
  | _ =>
      Raise (Exn "TypeError"
               ("argument of type '" ++ type_name v ++ "' is not iterable"))
  end.

(** Truth value of [v], as [if v] and [v or w] test it. *)
Definition truthy (v : pyval) : bool :=
  match v with
  | PScalar SNone => false
  | PScalar (SBool b) => b
  | PScalar (SInt z) => negb (Z.eqb z 0)
  | PScalar (SStr s) => negb (String.eqb s "")
  | PList l => match l with [] => false | _ => true end
  | PDict d => match d with [] => false | _ => true end
  end.

(** ** Category lookup *)

Definition categories : assoc string :=
  [ (SInt 2, "Web");
    (SInt 3, "Pwn");
    (SInt 4, "Crypto");
    (SInt 5, "Reverse");
    (SInt 7, "Forensics");
    (SInt 8, "Misc");
    (SInt 11, "Coding");
    (SInt 14, "Blockchain");
    (SInt 15, "Hardware");
    (SInt 16, "Warmup");
    (SInt 21, "ICS") ].

Definition categorie_name (categorie_id : pyval) : result pyval :=
  (k <- hashable categorie_id ;;
   match lookup k categories with
   | Some name => Ok (PStr name)
   | None => Ok categorie_id
   end)%result.

(** ** Grouping of the event view *)

Definition difficulty_order : list string :=
  ["sanity check"; "very easy"; "easy"; "medium"; "hard"].

Definition buckets : Type := assoc (assoc (list pyval)).

(** [categories[kc][kd]] on the nested [defaultdict]: both levels insert
    what is missing. *)
Definition bucket_at (kc kd : scalar) (categories : buckets)
  : list pyval * buckets :=
  let (inner, categories1) := dd_getitem [] kc categories in
  let (bucket, inner1) := dd_getitem [] kd inner in
  (bucket, store kc inner1 categories1).

(** The two keys of a challenge, read and hashed in the order the loop body
    does. *)
Definition challenge_keys (c : pyval) : result (scalar * scalar) :=
  (cat <- getitem c "challenge_category_id" ;;
   kc <- hashable cat ;;
   diff <- getitem c "difficulty" ;;
   kd <- hashable diff ;;
   Ok (kc, kd))%result.

(** [categories[c["challenge_category_id"]][c["difficulty"]].append(c)] *)
Definition add_challenge (categories : buckets) (c : pyval) : result buckets :=
  (ks <- challenge_keys c ;;
   let (kc, kd) := ks : scalar * scalar in
   let (inner, categories1) := dd_getitem [] kc categories in
   let (bucket, inner1) := dd_getitem [] kd inner in
   Ok (store kc (store kd (bucket ++ [c])%list inner1) categories1))%result.

Fixpoint collect (categories : buckets) (challenges : list pyval)
  : result buckets :=
  match challenges with
  | [] => Ok categories
  | c :: rest =>
      (categories1 <- add_challenge categories c ;;
       collect categories1 rest)%result
  end.

(** The inner comprehension
    [{diff: categories[cat_id][diff] for diff in difficulty_order
      if categories[cat_id][diff]}]. *)
Fixpoint difficulties (cat_id : scalar) (order : list string)
  (acc : assoc pyval) (categories : buckets) : assoc pyval * buckets :=
  match order with
  | [] => (acc, categories)
  | diff :: rest =>
      let (tested, categories1) := bucket_at cat_id (SStr diff) categories in
      if truthy (PList tested) then
        let (bucket, categories2) :=
          bucket_at cat_id (SStr diff) categories1 in
        difficulties cat_id rest (store (SStr diff) (PList bucket) acc)
          categories2
      else difficulties cat_id rest acc categories1
  end.

(** The outer comprehension over [for cat_id in categories]. *)
Fixpoint entries (cat_ids : list scalar) (acc : assoc pyval)
  (categories : buckets) : result (assoc pyval) :=
  match cat_ids with
  | [] => Ok acc
  | cat_id :: rest =>
      (name <- categorie_name (PScalar cat_id) ;;
       let (ds, categories1) :=
         difficulties cat_id difficulty_order [] categories in
       entries rest
         (store cat_id
            (PDict [(SStr "name", name); (SStr "difficulties", PDict ds)])
            acc)
         categories1)%result
  end.

(** Lines 116 to 131 of [event]. *)
Definition group_challenges (challenges : list pyval) : result pyval :=
  (categories <- collect [] challenges ;;
   grouped <- entries (keys categories) [] categories ;;
   Ok (PDict grouped))%result.

(** ** The remote tool bridge *)

(** One content item of a tool response: only text items have [.text]; an
    item of another class, such as [ImageContent], is kept by the name of
    its class. *)
Inductive content : Type :=
| TextContent (text : string)
| OtherContent (class_name : string).

(** What the bridge hands to a handler: a Python value, or the listing
    object of the protocol session with the names of its tools. *)
Inductive reply : Type :=
| Data (v : pyval)
| ToolListing (tool_names : list string).

(** What the bridge does on a session, in order: the exchanges with the
    remote service and the parsing of its answers. *)
Inductive wire_event : Type :=
| WOpen (authorization : string)
| WInitialize
| WListTools
| WCallTool (tool : string) (params : pyval)
| WJsonLoads (text : string)
| WClose.

(** One invocation of [mcp_call], with the arguments of its caller. *)
Record bridge_call : Type := BridgeCall {
  call_token : option string;
  call_tool : string;
  call_params : pyval
}.

(** The remote service and the libraries that reach it, over a state [W] of
    the outside world.  Each operation may raise. *)
Record remote (W : Type) : Type := Remote {
  transport_open : string -> W -> result unit * W;
  session_initialize : W -> result unit * W;
  session_list_tools : W -> result (list string) * W;
  session_call_tool : string -> pyval -> W -> result (list content) * W;
  transport_close : W -> result unit * W;
  json_loads : string -> result pyval
}.
Arguments transport_open {W}.
Arguments session_initialize {W}.
Arguments session_list_tools {W}.
Arguments session_call_tool {W}.
Arguments transport_close {W}.
Arguments json_loads {W}.

Record state (W : Type) : Type := State {
  world : W;
  calls : list bridge_call;
  wire : list wire_event
}.
Arguments State {W}.
Arguments world {W}.
Arguments calls {W}.
Arguments wire {W}.

(** Programs that change the state and may raise. *)
Definition M (W A : Type) : Type := state W -> result A * state W.

Definition ret {W A} (a : A) : M W A := fun s => (Ok a, s).

Definition bind {W A B} (m : M W A) (k : A -> M W B) : M W B :=
  fun s =>
    match m s with
    | (Ok a, s1) => k a s1
    | (Raise e, s1) => (Raise e, s1)
    end.

Definition lift {W A} (r : result A) : M W A := fun s => (r, s).

Declare Scope prog_scope.
Delimit Scope prog_scope with prog.
Notation "x <- m ;; k" := (bind m (fun x => k))
  (at level 100, m at next level, right associativity) : prog_scope.
Notation "m ;; k" := (bind m (fun _ => k))
  (at level 100, right associativity) : prog_scope.

(** The protocol client runs each of its [async with] blocks inside a task
    group.  A fault that leaves such a block, raised while it is entered, by
    its body or by its teardown, leaves it wrapped in an exception group,
    and the message of the group no longer shows the message of the
    fault. *)
Definition exception_group (e : exn) : exn :=
  Exn "ExceptionGroup" "unhandled errors in a TaskGroup (1 sub-exception)".

Definition task_group {W A} (block : M W A) : M W A :=
  fun s =>
    match block s with
    | (Ok a, s1) => (Ok a, s1)
    | (Raise e, s1) => (Raise (exception_group e), s1)
    end.

(** [async with enter as x: body], with the teardown [leave]: the teardown
    runs however the body ends, and a fault of the teardown replaces the
    outcome of the body. *)
Definition async_with {W A B} (enter : M W A) (leave : M W unit)
  (body : A -> M W B) : M W B :=
  task_group
    (fun s =>
       match enter s with
       | (Raise e, s1) => (Raise e, s1)
       | (Ok a, s1) =>
           let (r, s2) := body a s1 in
           match leave s2 with
           | (Ok _, s3) => (r, s3)
           | (Raise e, s3) => (Raise e, s3)
           end
       end).

(** [content[0].text] *)
Definition first_text (items : list content) : result string :=
  match items with
  | [] => Raise (Exn "IndexError" "list index out of range")
  | TextContent text :: _ => Ok text
  | OtherContent class_name :: _ =>
      Raise (Exn "AttributeError"
               ("'" ++ class_name ++ "' object has no attribute 'text'"))
  end.

(** [f"Bearer {token}"]: a missing cookie is formatted as [None]. *)
Definition bearer (token : option string) : string :=
  "Bearer " ++ match token with Some t => t | None => "None" end.

Definition error_record (e : exn) : pyval :=
  PDict [(SStr "error", PStr "exception");
         (SStr "error_description", PStr (exn_str e))].

Section Bridge.

Variable W : Type.
Variable R : remote W.

(** A session operation: it is recorded on the wire, then the world answers. *)
Definition perform {A} (ev : wire_event) (op : W -> result A * W) : M W A :=
  fun s =>
    let (r, w) := op (world s) in
    (r, State w (calls s) (wire s ++ [ev])%list).

Definition parse_json (text : string) : M W pyval :=
  fun s => (json_loads R text, State (world s) (calls s)
                                 (wire s ++ [WJsonLoads text])%list).

(** The outer block is the transport, the inner one the session; the
    session object exchanges nothing with the remote service when it is
    entered or left. *)
Definition _mcp_call (token : option string) (tool : string) (params : pyval)
  : M W reply :=
  async_with
    (perform (WOpen (bearer token)) (transport_open R (bearer token)))
    (perform WClose (transport_close R))
    (fun _ =>
       async_with (ret tt) (ret tt)
         (fun _ =>
            (perform WInitialize (session_initialize R) ;;
             if String.eqb tool "list_tools" then
               names <- perform WListTools (session_list_tools R) ;;
               ret (ToolListing names)
             else
               result <- perform (WCallTool tool params)
                           (session_call_tool R tool params) ;;
               text <- lift (first_text result) ;;
               v <- parse_json text ;;
               ret (Data v))%prog)).

(** The synchronous wrapper.  Each invocation is added to the record of
    bridge calls with the arguments of its caller; [except Exception] turns
    the exception that leaves the exchange into an error record. *)
Definition mcp_call (token : option string) (tool : string) (params : pyval)
  : M W reply :=
  fun s =>
    let s0 := State (world s)
                (calls s ++ [BridgeCall token tool params])%list (wire s) in
    match _mcp_call token tool
            (if truthy params then params else PDict []) s0 with
    | (Ok r, s1) => (Ok r, s1)
    | (Raise e, s1) => (Ok (Data (error_record e)), s1)
    end.

(** ** The view assembler *)

Record request : Type := Request {
  cookies : list (string * string);
  form : list (string * string)
}.

(** [request.cookies.get(name)] and [request.form.get(name)] *)
Fixpoint field (name : string) (fields : list (string * string))
  : option string :=
  match fields with
  | [] => None
  | (n, v) :: rest => if String.eqb n name then Some v else field name rest
  end.

(** [not token] *)
Definition no_token (token : option string) : bool :=
  match token with
  | None => true
  | Some t => String.eqb t ""
  end.

(** A keyword argument of [render_template]. *)
Inductive template_arg : Type :=
| TVal (v : pyval)
| TReply (r : reply)
| TCallable (f : pyval -> result pyval).

Inductive response : Type :=
| Redirect (location : string) (set_cookie : option (string * string))
| Template (name : string) (context : list (string * template_arg))
| Json (v : pyval).

(** [needle in r] on a reply: the listing object iterates as pairs of a
    field name and a value, none of which equals a string. *)
Definition reply_contains (needle : string) (r : reply) : result bool :=
  match r with
  | Data v => contains needle v
  | ToolListing _ => Ok false
  end.

Definition reply_get (r : reply) (key : string) (default : pyval)
  : result pyval :=
  match r with
  | Data v => get v key default
  | ToolListing _ =>
      Raise (Exn "AttributeError"
               "'ListToolsResult' object has no attribute 'get'")
  end.

Definition reply_getitem0 (r : reply) : result pyval :=
  match r with
  | Data v => getitem0 v
  | ToolListing _ =>
      Raise (Exn "TypeError"
               "'ListToolsResult' object is not subscriptable")
  end.

(** [[tool.name for tool in tools.tools]] *)
Definition reply_tool_names (r : reply) : result pyval :=
  match r with
  | ToolListing names => Ok (PList (map PStr names))
  | Data v =>
      Raise (Exn "AttributeError"
               ("'" ++ type_name v ++ "' object has no attribute 'tools'"))
  end.

Definition error_view (r : reply) : response :=
  Template "error.html" [("error", TReply r)].

Definition list_tools (req : request) : M W response :=
  let token := field "token" (cookies req) in
  if no_token token then ret (Redirect "/login" None)
  else
    (tools <- mcp_call token "list_tools" PNone ;;
     failed <- lift (reply_contains "error" tools) ;;
     if failed : bool then ret (error_view tools)
     else
       tool_names <- lift (reply_tool_names tools) ;;
       ret (Json tool_names))%prog.

(** The debugging [print] of [home] writes to the console only and is left
    out. *)
Definition home (req : request) : M W response :=
  let token := field "token" (cookies req) in
  if no_token token then ret (Redirect "/login" None)
  else
    (events <- mcp_call token "list_ctf_events" PNone ;;
     failed <- lift (reply_contains "error" events) ;;
     if failed : bool then ret (error_view events)
     else ret (Template "index.html" [("events", TReply events)]))%prog.

Definition home_login (req : request) : M W response :=
  ret (Template "login.html" []).

Definition login (req : request) : M W response :=
  match field "token" (form req) with
  | Some token =>
      if String.eqb token "" then ret (Redirect "/login" None)
      else ret (Redirect "/" (Some ("token", token)))
  | None => ret (Redirect "/login" None)
  end.

Definition join_params (event_id : Z) (team_id : pyval) : pyval :=
  PDict [(SStr "ctf_id", PInt event_id);
         (SStr "team_id", team_id);
         (SStr "consent", PTrue);
         (SStr "ctf_password", PNone)].

Definition join (event_id : Z) (req : request) : M W response :=
  let token := field "token" (cookies req) in
  (teams <- mcp_call token "retrieve_my_teams" PNone ;;
   first <- lift (reply_getitem0 teams) ;;
   team_id <- lift (get first "id" PNone) ;;
   join <- mcp_call token "join_ctf_event" (join_params event_id team_id) ;;
   failed <- lift (reply_contains "error" join) ;;
   if failed : bool then ret (error_view join)
   else ret (Redirect "/" None))%prog.

Definition event (event_id : Z) (req : request) : M W response :=
  let token := field "token" (cookies req) in
  (details <- mcp_call token "retrieve_ctf"
                (PDict [(SStr "ctf_id", PInt event_id)]) ;;
   failed <- lift (reply_contains "error" details) ;;
   if failed : bool then ret (error_view details)
   else
     challenges <- lift (reply_get details "challenges" (PList [])) ;;
     items <- lift (iterate challenges) ;;
     grouped <- lift (group_challenges items) ;;
     event_name <- lift (reply_get details "name" PNone) ;;
     ret (Template "event.html"
            [("event_name", TVal event_name);
             ("grouped", TVal grouped);
             ("difficulty_order", TVal (PList (map PStr difficulty_order)));
             ("event_id", TVal (PInt event_id))]))%prog.

Definition scoreboard (event_id : Z) (req : request) : M W response :=
  let token := field "token" (cookies req) in
  (details <- mcp_call token "retrieve_ctf_scores"
                (PDict [(SStr "ctf_id", PInt event_id)]) ;;
   failed <- lift (reply_contains "error" details) ;;
   if failed : bool then ret (error_view details)
   else ret (Template "scoreboard.html" [("details", TReply details)]))%prog.

(** The scan of [challenge]: the first entry whose [id] equals [chal_id],
    or the empty record. *)
Fixpoint find_challenge (chal_id : Z) (items : list pyval) : result pyval :=
  match items with
  | [] => Ok (PDict [])
  | chall :: rest =>
      (id <- get chall "id" PNone ;;
       if py_eqb id (SInt chal_id) then Ok chall
       else find_challenge chal_id rest)%result
  end.

Definition challenge_view (event_id chal_id : Z) (chal : pyval)
  (download_link : reply) : response :=
  Template "challenge.html"
    [("chal_id", TVal (PInt chal_id));
     ("event_id", TVal (PInt event_id));
     ("chal", TVal chal);
     ("download_link", TReply download_link);
     ("categorie_name", TCallable categorie_name)].

Definition challenge (event_id chal_id : Z) (req : request) : M W response :=
  let token := field "token" (cookies req) in
  (details <- mcp_call token "retrieve_ctf"
                (PDict [(SStr "ctf_id", PInt event_id)]) ;;
   failed <- lift (reply_contains "error" details) ;;
   if failed : bool then ret (error_view details)
   else
     download_link <- mcp_call token "get_download_link"
                        (PDict [(SStr "challenge_id", PInt chal_id)]) ;;
     challenges <- lift (reply_get details "challenges" (PList [])) ;;
     items <- lift (iterate challenges) ;;
     challenge_data <- lift (find_challenge chal_id items) ;;
     ret (challenge_view event_id chal_id challenge_data download_link))%prog.

Definition generic_view (result : reply) : response :=
  Template "generic.html" [("result", TReply result)].

Definition start_container (chal_id : Z) (req : request) : M W response :=
  let token := field "token" (cookies req) in
  (result <- mcp_call token "start_container"
               (PDict [(SStr "challenge_id", PInt chal_id)]) ;;
   ret (generic_view result))%prog.

Definition stop_container (chal_id : Z) (req : request) : M W response :=
  let token := field "token" (cookies req) in
  (result <- mcp_call token "stop_container"
               (PDict [(SStr "challenge_id", PInt chal_id)]) ;;
   ret (generic_view result))%prog.

Definition submit_flag (chal_id : Z) (req : request) : M W response :=
  let token := field "token" (cookies req) in
  let flag := match field "flag" (form req) with
              | Some f => PStr f
              | None => PNone
              end in
  (result <- mcp_call token "submit_flag"
               (PDict [(SStr "challenge_id", PInt chal_id);
                       (SStr "flag", flag)]) ;;
   ret (generic_view result))%prog.

End Bridge.

(** ** Notions of the specification *)

(** The canonical spelling of a key: booleans count as the integers 0 and 1. *)
Definition canon (k : scalar) : scalar :=
  match k with
  | SBool b => SInt (Z.b2z b)
  | _ => k
  end.

(** Storing under a key appends it when it is new and keeps the keys as they
    are otherwise. *)
Definition add_key (ks : list scalar) (k : scalar) : list scalar :=
  if has_key k ks then ks else (ks ++ [k])%list.

(** Keys no two of which are equal. *)
Fixpoint distinctb (ks : list scalar) : bool :=
  match ks with
  | [] => true
  | k :: rest => negb (has_key k rest) && distinctb rest
  end.

(** The keys of a dictionary filled from empty are distinct. *)
Definition distinct (ks : list scalar) : list scalar :=
  fold_left add_key ks [].

(** A challenge the grouping loop can file: a record with a hashable
    [challenge_category_id] and a hashable [difficulty]. *)
Definition well_formed (c : pyval) : bool :=
  match challenge_keys c with
  | Ok _ => true
  | Raise _ => false
  end.

(** [c] has category [kc] and difficulty [kd]. *)
Definition in_bucket (kc kd : scalar) (c : pyval) : bool :=
  match challenge_keys c with
  | Ok (kc', kd') => scalar_eqb kc' kc && scalar_eqb kd' kd
  | Raise _ => false
  end.

Definition bucket_of (kc kd : scalar) (challenges : list pyval) : list pyval :=
  filter (in_bucket kc kd) challenges.

Definition category_ids (challenges : list pyval) : list scalar :=
  flat_map (fun c => match challenge_keys c with
                     | Ok (kc, _) => [kc]
                     | Raise _ => []
                     end) challenges.

Definition category_label (cat_id : scalar) : pyval :=
  match lookup cat_id categories with
  | Some name => PStr name
  | None => PScalar cat_id
  end.

Definition nonempty {A} (l : list A) : bool :=
  match l with [] => false | _ => true end.

(** The difficulty labels of a category that have challenges, in the fixed
    precedence order. *)
Definition present_labels (b : scalar -> scalar -> list pyval)
  (cat_id : scalar) : list string :=
  filter (fun d => nonempty (b cat_id (SStr d))) difficulty_order.

Definition difficulties_by_spec (b : scalar -> scalar -> list pyval)
  (cat_id : scalar) : assoc pyval :=
  map (fun d => (SStr d, PList (b cat_id (SStr d)))) (present_labels b cat_id).

Definition entry_by_spec (b : scalar -> scalar -> list pyval)
  (cat_id : scalar) : pyval :=
  PDict [(SStr "name", category_label cat_id);
         (SStr "difficulties", PDict (difficulties_by_spec b cat_id))].

Definition grouped_by_spec (challenges : list pyval) : assoc pyval :=
  map (fun cat_id =>
         (cat_id, entry_by_spec (fun kc kd => bucket_of kc kd challenges) cat_id))
    (distinct (category_ids challenges)).

(** What the nested [defaultdict] holds under two keys, without inserting. *)
Definition peek (categories : buckets) (kc kd : scalar) : list pyval :=
  match lookup kc categories with
  | Some inner =>
      match lookup kd inner with
      | Some bucket => bucket
      | None => []
      end
  | None => []
  end.

(** [bucket] is the list the grouped view model holds for category [cat_id]
    under difficulty [d]. *)
Definition bucket_in_view (grouped : assoc pyval) (cat_id d : scalar)
  (bucket : list pyval) : Prop :=
  exists entry ds,
    In (cat_id, PDict entry) grouped
    /\ lookup (SStr "difficulties") entry = Some (PDict ds)
    /\ In (d, PList bucket) ds.

(** ** Sample data *)

Definition sample_challenge (id cat : Z) (difficulty : string) : pyval :=
  PDict [(SStr "id", PInt id);
         (SStr "challenge_category_id", PInt cat);
         (SStr "difficulty", PStr difficulty)].

Definition sample_challenges : list pyval :=
  [sample_challenge 1 2 "medium";
   sample_challenge 2 3 "hard";
   sample_challenge 3 2 "easy";
   sample_challenge 4 2 "insane";
   sample_challenge 5 2 "medium"].

(** Wire traffic of a tool invocation: the call itself and the parsing of
    its answer. *)
Definition is_tool_traffic (ev : wire_event) : bool :=
  match ev with
  | WCallTool _ _ | WJsonLoads _ => true
  | _ => false
  end.

(** A program that leaves the record of bridge calls as it is. *)
Definition keeps_calls {W A} (m : M W A) : Prop :=
  forall s, calls (snd (m s)) = calls s.

(** [c] is a record whose [id] equals [chal_id]. *)
Definition has_id (chal_id : Z) (c : pyval) : bool :=
  match get c "id" PNone with
  | Ok id => py_eqb id (SInt chal_id)
  | Raise _ => false
  end.

Definition is_record (v : pyval) : bool :=
  match v with
  | PDict _ => true
  | _ => false
  end.

(** A remote service for the examples.  Its world counts the requests it
    has answered.  A tool answers with one text item that names its payload,
    and [json_loads] decodes the names; the download link of a challenge is
    refused, and a session without a token is rejected. *)
Definition sample_teams : pyval :=
  PList [PDict [(SStr "id", PInt 7)]; PDict [(SStr "id", PInt 9)]].

Definition sample_details : pyval :=
  PDict [(SStr "name", PStr "Cyber Apocalypse");
         (SStr "challenges", PList sample_challenges)].

Definition sample_joined : pyval :=
  PDict [(SStr "success", PTrue)].

Definition sample_json_loads (text : string) : result pyval :=
  if String.eqb text "<teams>" then Ok sample_teams
  else if String.eqb text "<details>" then Ok sample_details
  else if String.eqb text "<joined>" then Ok sample_joined
  else Raise (Exn "JSONDecodeError" "Expecting value: line 1 column 1 (char 0)").

Definition sample_call_tool (tool : string) (params : pyval) (w : nat)
  : result (list content) * nat :=
  if String.eqb tool "retrieve_my_teams" then (Ok [TextContent "<teams>"], S w)
  else if String.eqb tool "retrieve_ctf" then (Ok [TextContent "<details>"], S w)
  else if String.eqb tool "join_ctf_event" then (Ok [TextContent "<joined>"], S w)
  else if String.eqb tool "get_download_link" then
    (Raise (Exn "McpError" "challenge has no files"), S w)
  else (Ok [], S w).

Definition sample_remote : remote nat :=
  {| transport_open := fun authorization w =>
       if String.eqb authorization "Bearer None"
       then (Raise (Exn "HTTPStatusError" "401 Unauthorized"), w)
       else (Ok tt, w);
     session_initialize := fun w => (Ok tt, w);
     session_list_tools := fun w => (Ok ["retrieve_ctf"; "submit_flag"], S w);
     session_call_tool := sample_call_tool;
     transport_close := fun w => (Ok tt, w);
     json_loads := sample_json_loads |}.

Definition sample_state : state nat := State 0%nat [] [].

Definition sample_request : request :=
  Request [("token", "secret")] [].

Definition anonymous_request : request := Request [] [].

(** ** The routing table *)

(** The routes of the application, with the arguments the URL converters
    extract; [<int:...>] yields a natural number, kept as an integer. *)
Inductive route : Type :=
| GetTools
| GetHome
| GetLogin
| PostLogin
| GetJoin (event_id : Z)
| GetEvent (event_id : Z)
| GetScoreboard (event_id : Z)
| GetChallenge (event_id chal_id : Z)
| GetStartContainer (chal_id : Z)
| GetStopContainer (chal_id : Z)
| PostSubmitFlag (chal_id : Z).

Definition handle {W} (R : remote W) (r : route) (req : request)
  : M W response :=
  match r with
  | GetTools => list_tools W R req
  | GetHome => home W R req
  | GetLogin => home_login W req
  | PostLogin => login W req
  | GetJoin event_id => join W R event_id req
  | GetEvent event_id => event W R event_id req
  | GetScoreboard event_id => scoreboard W R event_id req
  | GetChallenge event_id chal_id => challenge W R event_id chal_id req
  | GetStartContainer chal_id => start_container W R chal_id req
  | GetStopContainer chal_id => stop_container W R chal_id req
  | PostSubmitFlag chal_id => submit_flag W R chal_id req
  end.

(** ** Notions for the further properties *)

(** What a session exchanges between the handshake and the teardown. *)
Definition session_body (tool : string) (params : pyval)
  (mid : list wire_event) : Prop :=
  mid = []
  \/ (tool = "list_tools" /\ mid = [WListTools])
  \/ (tool <> "list_tools"
      /\ (mid = [WCallTool tool params]
          \/ exists text, mid = [WCallTool tool params; WJsonLoads text])).

(** The events of one bridge call: a refused connection, or a session that
    is initialized and closed. *)
Definition session_events (token : option string) (tool : string)
  (params : pyval) (evs : list wire_event) : Prop :=
  evs = [WOpen (bearer token)]
  \/ exists mid,
      evs = (WOpen (bearer token) :: WInitialize :: mid ++ [WClose])%list
      /\ session_body tool params mid.

Definition opens_as (token : option string) (ev : wire_event) : Prop :=
  match ev with
  | WOpen authorization => authorization = bearer token
  | _ => True
  end.

(** A program that makes at most [n] bridge calls, all with [token], and
    opens sessions with that token only. *)
Definition forwards {W A} (token : option string) (n : nat) (m : M W A)
  : Prop :=
  forall s,
  exists new evs,
    calls (snd (m s)) = (calls s ++ new)%list
    /\ wire (snd (m s)) = (wire s ++ evs)%list
    /\ (List.length new <= n)%nat
    /\ Forall (fun c => call_token c = token) new
    /\ Forall (opens_as token) evs.

(** [c] is filed under one of the five difficulty labels. *)
Definition known_difficulty (c : pyval) : bool :=
  match challenge_keys c with
  | Ok (_, kd) => has_key kd (map SStr difficulty_order)
  | Raise _ => false
  end.

(** [c] has category [cat_id]. *)
Definition in_category (cat_id : scalar) (c : pyval) : bool :=
  match challenge_keys c with
  | Ok (kc, _) => scalar_eqb kc cat_id
  | Raise _ => false
  end.

(** The challenges the grouped view model shows, bucket after bucket. *)
Definition shown (grouped : assoc pyval) : list pyval :=
  flat_map
    (fun entry =>
       match snd entry with
       | PDict fields =>
           match lookup (SStr "difficulties") fields with
           | Some (PDict ds) =>
               flat_map (fun b => match snd b with
                                  | PList bucket => bucket
                                  | _ => []
                                  end) ds
           | _ => []
           end
       | _ => []
       end) grouped.

Definition is_container (v : pyval) : bool :=
  match v with
  | PScalar _ => false
  | _ => true
  end.

(** A remote service whose every tool answers with the same payload. *)
Definition constant_remote (payload : pyval) : remote nat :=
  {| transport_open := fun _ w => (Ok tt, w);
     session_initialize := fun w => (Ok tt, w);
     session_list_tools := fun w => (Ok ["retrieve_ctf"; "submit_flag"], S w);
     session_call_tool := fun _ _ w => (Ok [TextContent "<payload>"], S w);
     transport_close := fun w => (Ok tt, w);
     json_loads := fun _ => Ok payload |}.

(** A remote service that cannot be reached. *)
Definition unreachable_remote : remote nat :=
  {| transport_open := fun _ w =>
       (Raise (Exn "ConnectError" "All connection attempts failed"), w);
     session_initialize := fun w => (Ok tt, w);
     session_list_tools := fun w => (Ok [], w);
     session_call_tool := fun _ _ w => (Ok [], w);
     transport_close := fun w => (Ok tt, w);
     json_loads := fun _ => Ok PNone |}.

(** A remote service that is down: the session is set up, and the first
    request, the handshake, finds no one to connect to. *)
Definition offline_remote : remote nat :=
  {| transport_open := fun _ w => (Ok tt, w);
     session_initialize := fun w =>
       (Raise (Exn "ConnectError" "All connection attempts failed"), w);
     session_list_tools := fun w => (Ok [], w);
     session_call_tool := fun _ _ w => (Ok [], w);
     transport_close := fun w => (Ok tt, w);
     json_loads := fun _ => Ok PNone |}.

(** The first bridge call of a route that reads and renders. *)
Definition read_call (r : route) : option (string * pyval) :=
  match r with
  | GetTools => Some ("list_tools", PNone)
  | GetHome => Some ("list_ctf_events", PNone)
  | GetEvent event_id =>
      Some ("retrieve_ctf", PDict [(SStr "ctf_id", PInt event_id)])
  | GetScoreboard event_id =>
      Some ("retrieve_ctf_scores", PDict [(SStr "ctf_id", PInt event_id)])
  | GetChallenge event_id _ =>
      Some ("retrieve_ctf", PDict [(SStr "ctf_id", PInt event_id)])
  | _ => None
  end.

(** The routes that test the token before they call. *)
Definition guarded (r : route) : bool :=
  match r with
  | GetTools | GetHome => true
  | _ => false
  end.

(** The bridge call of a route that acts and shows whatever came back. *)
Definition action_call (r : route) (req : request) : option (string * pyval) :=
  match r with
  | GetStartContainer chal_id =>
      Some ("start_container", PDict [(SStr "challenge_id", PInt chal_id)])
  | GetStopContainer chal_id =>
      Some ("stop_container", PDict [(SStr "challenge_id", PInt chal_id)])
  | PostSubmitFlag chal_id =>
      Some ("submit_flag",
            PDict [(SStr "challenge_id", PInt chal_id);
                   (SStr "flag",
                    match field "flag" (form req) with
                    | Some f => PStr f
                    | None => PNone
                    end)])
  | _ => None
  end.

Definition is_str (k : scalar) : bool :=
  match k with
  | SStr _ => true
  | _ => false
  end.

(** * Properties *)

(** ** Key equality is an equivalence *)

Lemma scalar_eqb_canon (a b : scalar) :
  scalar_eqb a b = true <-> canon a = canon b.
Proof.
  destruct a as [|x|x|x], b as [|y|y|y]; cbn;
    try (split; [discriminate | intro H; discriminate H]);
    try (split; reflexivity).
  - rewrite Z.eqb_eq. split; [now intros -> | now intros [= ->]].
  - rewrite Z.eqb_eq. split; [now intros -> | now intros [= ->]].
  - rewrite Z.eqb_eq. split; [now intros -> | now intros [= ->]].
  - rewrite Z.eqb_eq. split; [now intros -> | now intros [= ->]].
  - rewrite String.eqb_eq. split; [now intros -> | now intros [= ->]].
Qed.

Lemma scalar_eqb_refl (a : scalar) : scalar_eqb a a = true.
Proof. now apply scalar_eqb_canon. Qed.

Lemma scalar_eqb_sym (a b : scalar) : scalar_eqb a b = scalar_eqb b a.
Proof.
  destruct (scalar_eqb a b) eqn:E, (scalar_eqb b a) eqn:F; try reflexivity.
  - apply scalar_eqb_canon in E. symmetry in E.
    apply scalar_eqb_canon in E. congruence.
  - apply scalar_eqb_canon in F. symmetry in F.
    apply scalar_eqb_canon in F. congruence.
Qed.

Lemma scalar_eqb_trans (a b c : scalar) :
  scalar_eqb a b = true -> scalar_eqb b c = true -> scalar_eqb a c = true.
Proof.
  rewrite !scalar_eqb_canon. congruence.
Qed.

(** Equal keys are interchangeable on either side of a comparison. *)
Lemma scalar_eqb_congr_l (a b c : scalar) :
  scalar_eqb a b = true -> scalar_eqb a c = scalar_eqb b c.
Proof.
  intro H.
  destruct (scalar_eqb a c) eqn:E, (scalar_eqb b c) eqn:F; try reflexivity.
  - rewrite scalar_eqb_sym in H.
    rewrite (scalar_eqb_trans _ _ _ H E) in F. discriminate.
  - rewrite (scalar_eqb_trans _ _ _ H F) in E. discriminate.
Qed.

Lemma scalar_eqb_congr_r (a b c : scalar) :
  scalar_eqb a b = true -> scalar_eqb c a = scalar_eqb c b.
Proof.
  intro H. rewrite (scalar_eqb_sym c a), (scalar_eqb_sym c b).
  now apply scalar_eqb_congr_l.
Qed.

(** ** Dictionaries *)

Lemma has_key_congr (k k' : scalar) (ks : list scalar) :
  scalar_eqb k k' = true -> has_key k ks = has_key k' ks.
Proof.
  intro H. unfold has_key. induction ks as [|x ks IH]; cbn; [reflexivity|].
  now rewrite IH, (scalar_eqb_congr_r _ _ x H).
Qed.

Lemma lookup_congr {V} (k k' : scalar) (d : assoc V) :
  scalar_eqb k k' = true -> lookup k d = lookup k' d.
Proof.
  intro H. induction d as [|[x v] d IH]; cbn; [reflexivity|].
  now rewrite IH, (scalar_eqb_congr_r _ _ x H).
Qed.

Lemma lookup_has_key {V} (k : scalar) (d : assoc V) :
  has_key k (keys d) = match lookup k d with Some _ => true | None => false end.
Proof.
  induction d as [|[x v] d IH]; cbn; [reflexivity|].
  destruct (scalar_eqb x k); cbn; [reflexivity | exact IH].
Qed.

Lemma lookup_store {V} (k k' : scalar) (v : V) (d : assoc V) :
  lookup k' (store k v d)
  = if scalar_eqb k k' then Some v else lookup k' d.
Proof.
  induction d as [|[x w] d IH]; cbn.
  - reflexivity.
  - destruct (scalar_eqb x k) eqn:E; cbn.
    + rewrite (scalar_eqb_congr_l _ _ k' E).
      now destruct (scalar_eqb k k').
    + rewrite IH. destruct (scalar_eqb x k') eqn:F; [|reflexivity].
      now rewrite <- (scalar_eqb_congr_r _ _ k F), (scalar_eqb_sym k x), E.
Qed.

Lemma keys_store {V} (k : scalar) (v : V) (d : assoc V) :
  keys (store k v d) = add_key (keys d) k.
Proof.
  unfold add_key, has_key, keys.
  induction d as [|[x w] d IH]; cbn; [reflexivity|].
  destruct (scalar_eqb x k); cbn; [reflexivity|].
  rewrite IH. now destruct (existsb _ (map fst d)).
Qed.

Lemma add_key_present (ks : list scalar) (k : scalar) :
  has_key k ks = true -> add_key ks k = ks.
Proof. unfold add_key. now intros ->. Qed.

Lemma has_key_add_key (ks : list scalar) (k k' : scalar) :
  has_key k' (add_key ks k) = has_key k' ks || scalar_eqb k k'.
Proof.
  unfold add_key. destruct (has_key k ks) eqn:E.
  - destruct (scalar_eqb k k') eqn:F; [|now rewrite orb_false_r].
    now rewrite <- (has_key_congr _ _ ks F), E.
  - unfold has_key. rewrite existsb_app. cbn. now rewrite orb_false_r.
Qed.

Lemma dd_getitem_value {V} (default : V) (k : scalar) (d : assoc V) :
  fst (dd_getitem default k d)
  = match lookup k d with Some v => v | None => default end.
Proof. unfold dd_getitem. now destruct (lookup k d). Qed.

Lemma dd_getitem_lookup {V} (default : V) (k k' : scalar) (d : assoc V) :
  lookup k' (snd (dd_getitem default k d))
  = if scalar_eqb k k' then Some (fst (dd_getitem default k d))
    else lookup k' d.
Proof.
  unfold dd_getitem. destruct (lookup k d) eqn:E; cbn.
  - destruct (scalar_eqb k k') eqn:F; [|reflexivity].
    now rewrite <- (lookup_congr _ _ d F).
  - apply lookup_store.
Qed.

Lemma add_key_idem (ks : list scalar) (k : scalar) :
  add_key (add_key ks k) k = add_key ks k.
Proof.
  apply add_key_present.
  rewrite has_key_add_key, scalar_eqb_refl. apply orb_true_r.
Qed.

Lemma dd_getitem_keys {V} (default : V) (k : scalar) (d : assoc V) :
  keys (snd (dd_getitem default k d)) = add_key (keys d) k.
Proof.
  pose proof (lookup_has_key k d) as P.
  unfold dd_getitem. destruct (lookup k d); cbn [snd].
  - symmetry. now apply add_key_present.
  - apply keys_store.
Qed.

Lemma store_new {V} (k : scalar) (v : V) (d : assoc V) :
  has_key k (keys d) = false -> store k v d = (d ++ [(k, v)])%list.
Proof.
  unfold has_key, keys. induction d as [|[x w] d IH]; cbn; [reflexivity|].
  destruct (scalar_eqb x k); cbn; [discriminate|].
  intro H. now rewrite IH.
Qed.

Lemma has_key_false_in (k k' : scalar) (ks : list scalar) :
  has_key k ks = false -> In k' ks -> scalar_eqb k' k = false.
Proof.
  unfold has_key. intros H Hin.
  destruct (scalar_eqb k' k) eqn:E; [|reflexivity].
  assert (existsb (fun x => scalar_eqb x k) ks = true)
    by (apply existsb_exists; eauto).
  congruence.
Qed.

(** A run of stores under distinct new keys appends them in order. *)
Lemma fold_store_distinct {X V} (key : X -> scalar) (f : X -> V) :
  forall (xs : list X) (acc : assoc V),
    distinctb (map key xs) = true ->
    (forall x, In x xs -> has_key (key x) (keys acc) = false) ->
    fold_left (fun a x => store (key x) (f x) a) xs acc
    = (acc ++ map (fun x => (key x, f x)) xs)%list.
Proof.
  induction xs as [|x xs IH]; intros acc Hd Hnew; cbn.
  - now rewrite app_nil_r.
  - cbn in Hd. apply andb_true_iff in Hd as [Hx Hd].
    apply negb_true_iff in Hx.
    rewrite (store_new _ _ _ (Hnew x (or_introl eq_refl))).
    rewrite IH; [now rewrite <- app_assoc | exact Hd |].
    intros y Hy. unfold keys. rewrite map_app. cbn.
    unfold has_key. rewrite existsb_app. cbn.
    rewrite orb_false_r.
    fold (has_key (key y) (map fst acc)).
    change (map fst acc) with (keys acc).
    rewrite (Hnew y (or_intror Hy)). cbn.
    rewrite scalar_eqb_sym.
    apply (has_key_false_in _ _ _ Hx). now apply in_map.
Qed.

Lemma has_key_filter {X} (key : X -> scalar) (p : X -> bool) (k : scalar) :
  forall xs, has_key k (map key xs) = false ->
             has_key k (map key (filter p xs)) = false.
Proof.
  unfold has_key. induction xs as [|x xs IH]; cbn; [reflexivity|].
  intro H. apply orb_false_iff in H as [H1 H2].
  destruct (p x); cbn; [rewrite H1|]; now apply IH.
Qed.

Lemma distinctb_filter {X} (key : X -> scalar) (p : X -> bool) :
  forall xs, distinctb (map key xs) = true ->
             distinctb (map key (filter p xs)) = true.
Proof.
  induction xs as [|x xs IH]; cbn; [reflexivity|].
  intro H. apply andb_true_iff in H as [H1 H2].
  destruct (p x); cbn; [|now apply IH].
  apply negb_true_iff in H1.
  now rewrite (has_key_filter key p _ xs H1), IH.
Qed.

Lemma distinctb_app_one (ks : list scalar) (k : scalar) :
  distinctb ks = true -> has_key k ks = false ->
  distinctb (ks ++ [k]) = true.
Proof.
  induction ks as [|x ks IH]; cbn; [reflexivity|].
  intros Hd Hk. apply andb_true_iff in Hd as [Hx Hd].
  unfold has_key in Hk. cbn in Hk. apply orb_false_iff in Hk as [Hxk Hk].
  rewrite IH by assumption. rewrite andb_true_r.
  unfold has_key. rewrite existsb_app. cbn.
  apply negb_true_iff in Hx. unfold has_key in Hx. rewrite Hx. cbn.
  now rewrite scalar_eqb_sym, Hxk.
Qed.

Lemma distinctb_add_key (ks : list scalar) (k : scalar) :
  distinctb ks = true -> distinctb (add_key ks k) = true.
Proof.
  intro H. unfold add_key. destruct (has_key k ks) eqn:E; [exact H|].
  now apply distinctb_app_one.
Qed.

Lemma distinctb_fold_add_key (ks acc : list scalar) :
  distinctb acc = true -> distinctb (fold_left add_key ks acc) = true.
Proof.
  revert acc. induction ks as [|k ks IH]; intros acc H; cbn; [exact H|].
  apply IH. now apply distinctb_add_key.
Qed.

Lemma distinctb_distinct (ks : list scalar) : distinctb (distinct ks) = true.
Proof. now apply distinctb_fold_add_key. Qed.

(** ** The grouping of the event view *)

Lemma bucket_at_unfold (kc kd : scalar) (categories : buckets) :
  bucket_at kc kd categories
  = (fst (dd_getitem [] kd (fst (dd_getitem [] kc categories))),
     store kc (snd (dd_getitem [] kd (fst (dd_getitem [] kc categories))))
       (snd (dd_getitem [] kc categories))).
Proof.
  unfold bucket_at.
  destruct (dd_getitem [] kc categories) as [inner categories1]. cbn.
  now destruct (dd_getitem [] kd inner).
Qed.

Lemma bucket_at_value (kc kd : scalar) (categories : buckets) :
  fst (bucket_at kc kd categories) = peek categories kc kd.
Proof.
  rewrite bucket_at_unfold. cbn. rewrite !dd_getitem_value.
  unfold peek, buckets, assoc in *.
  destruct (lookup kc categories); reflexivity.
Qed.

(** Reading a bucket inserts empty entries only: no bucket changes. *)
Lemma bucket_at_peek (kc kd k1 k2 : scalar) (categories : buckets) :
  peek (snd (bucket_at kc kd categories)) k1 k2 = peek categories k1 k2.
Proof.
  rewrite bucket_at_unfold. cbn. unfold peek.
  rewrite lookup_store. destruct (scalar_eqb kc k1) eqn:E.
  - rewrite dd_getitem_lookup, <- (lookup_congr _ _ categories E).
    rewrite !dd_getitem_value. unfold buckets, assoc in *.
    destruct (lookup kc categories) as [inner|]; cbn.
    + destruct (scalar_eqb kd k2) eqn:F; [|reflexivity].
      rewrite <- (lookup_congr _ _ inner F).
      now destruct (lookup kd inner).
    + now destruct (scalar_eqb kd k2).
  - now rewrite dd_getitem_lookup, E.
Qed.

Lemma add_challenge_peek (categories : buckets) (c : pyval)
  (kc kd : scalar) :
  challenge_keys c = Ok (kc, kd) ->
  exists categories',
    add_challenge categories c = Ok categories'
    /\ (forall k1 k2,
          peek categories' k1 k2
          = (peek categories k1 k2
             ++ if scalar_eqb kc k1 && scalar_eqb kd k2 then [c] else [])%list)
    /\ keys categories' = add_key (keys categories) kc.
Proof.
  intro Hk. unfold add_challenge. rewrite Hk. cbn.
  destruct (dd_getitem [] kc categories) as [inner categories1] eqn:E1.
  destruct (dd_getitem [] kd inner) as [bucket inner1] eqn:E2.
  eexists. split; [reflexivity|].
  assert (Hc : forall k, lookup k categories1
                         = if scalar_eqb kc k then Some inner
                           else lookup k categories).
  { intro k. generalize (dd_getitem_lookup [] kc k categories).
    now rewrite E1. }
  assert (Hi : forall k, lookup k inner1
                         = if scalar_eqb kd k then Some bucket
                           else lookup k inner).
  { intro k. generalize (dd_getitem_lookup [] kd k inner). now rewrite E2. }
  assert (Hinner : inner = match lookup kc categories with
                           | Some v => v | None => [] end).
  { generalize (dd_getitem_value [] kc categories). now rewrite E1. }
  assert (Hbucket : bucket = match lookup kd inner with
                             | Some v => v | None => [] end).
  { generalize (dd_getitem_value [] kd inner). now rewrite E2. }
  split.
  - intros k1 k2. unfold peek. rewrite lookup_store.
    destruct (scalar_eqb kc k1) eqn:E; cbn.
    + rewrite lookup_store, <- (lookup_congr _ _ categories E).
      rewrite Hi, Hbucket, Hinner. unfold buckets, assoc in *.
      destruct (lookup kc categories) as [v|]; cbn.
      * destruct (scalar_eqb kd k2) eqn:F; cbn.
        -- rewrite <- (lookup_congr _ _ v F). now destruct (lookup kd v).
        -- now rewrite app_nil_r.
      * now destruct (scalar_eqb kd k2).
    + now rewrite app_nil_r, Hc, E.
  - rewrite keys_store.
    replace categories1 with (snd (dd_getitem [] kc categories))
      by now rewrite E1.
    rewrite dd_getitem_keys. apply add_key_idem.
Qed.

Lemma collect_spec :
  forall (challenges : list pyval) (categories : buckets),
    forallb well_formed challenges = true ->
    exists categories',
      collect categories challenges = Ok categories'
      /\ (forall k1 k2,
            peek categories' k1 k2
            = (peek categories k1 k2 ++ bucket_of k1 k2 challenges)%list)
      /\ keys categories'
         = fold_left add_key (category_ids challenges) (keys categories).
Proof.
  induction challenges as [|c rest IH]; intros categories Hwf.
  - exists categories. cbn. split; [reflexivity|].
    split; [intros; now rewrite app_nil_r | reflexivity].
  - cbn in Hwf. apply andb_true_iff in Hwf as [Hc Hrest].
    unfold well_formed in Hc.
    destruct (challenge_keys c) as [[kc kd]|] eqn:Hk; [clear Hc|discriminate].
    destruct (add_challenge_peek categories c kc kd Hk)
      as (categories1 & Hadd & Hpeek & Hkeys).
    destruct (IH categories1 Hrest) as (categories' & Hcol & Hpeek' & Hkeys').
    exists categories'. cbn. rewrite Hadd. cbn.
    split; [exact Hcol|]. split.
    + intros k1 k2. rewrite Hpeek', Hpeek, <- app_assoc. f_equal.
      unfold bucket_of. cbn. unfold in_bucket at 2. rewrite Hk.
      now destruct (scalar_eqb kc k1 && scalar_eqb kd k2).
    + rewrite Hkeys', Hkeys. unfold category_ids. cbn. now rewrite Hk.
Qed.

Lemma difficulties_spec (b : scalar -> scalar -> list pyval)
  (cat_id : scalar) :
  forall (order : list string) (acc : assoc pyval) (categories : buckets),
    (forall k1 k2, peek categories k1 k2 = b k1 k2) ->
    exists categories',
      difficulties cat_id order acc categories
      = (fold_left
           (fun a d => store (SStr d) (PList (b cat_id (SStr d))) a)
           (filter (fun d => nonempty (b cat_id (SStr d))) order) acc,
         categories')
      /\ forall k1 k2, peek categories' k1 k2 = b k1 k2.
Proof.
  induction order as [|diff rest IH]; intros acc categories Hb; cbn.
  - now exists categories.
  - pose proof (bucket_at_value cat_id (SStr diff) categories) as V1.
    pose proof (fun k1 k2 =>
                  bucket_at_peek cat_id (SStr diff) k1 k2 categories) as P1.
    destruct (bucket_at cat_id (SStr diff) categories)
      as [tested categories1]. cbn in V1, P1.
    rewrite Hb in V1. subst tested.
    assert (Hb1 : forall k1 k2, peek categories1 k1 k2 = b k1 k2)
      by (intros; now rewrite P1).
    change (match b cat_id (SStr diff) with [] => false | _ :: _ => true end)
      with (nonempty (b cat_id (SStr diff))).
    destruct (nonempty (b cat_id (SStr diff))); [|now apply IH].
    pose proof (bucket_at_value cat_id (SStr diff) categories1) as V2.
    pose proof (fun k1 k2 =>
                  bucket_at_peek cat_id (SStr diff) k1 k2 categories1) as P2.
    destruct (bucket_at cat_id (SStr diff) categories1)
      as [bucket categories2]. cbn in V2, P2.
    rewrite Hb1 in V2. subst bucket.
    apply IH. intros. now rewrite P2.
Qed.

Lemma categorie_name_scalar (cat_id : scalar) :
  categorie_name (PScalar cat_id) = Ok (category_label cat_id).
Proof.
  unfold categorie_name, category_label. cbn [hashable rbind].
  now destruct (lookup cat_id categories).
Qed.

Lemma distinctb_difficulty_order :
  distinctb (map SStr difficulty_order) = true.
Proof. reflexivity. Qed.

Lemma entries_spec (b : scalar -> scalar -> list pyval) :
  forall (cat_ids : list scalar) (acc : assoc pyval) (categories : buckets),
    (forall k1 k2, peek categories k1 k2 = b k1 k2) ->
    entries cat_ids acc categories
    = Ok (fold_left (fun a cat_id => store cat_id (entry_by_spec b cat_id) a)
            cat_ids acc).
Proof.
  induction cat_ids as [|cat_id rest IH]; intros acc categories Hb;
    cbn [entries fold_left].
  - reflexivity.
  - rewrite categorie_name_scalar. cbn [rbind].
    destruct (difficulties_spec b cat_id difficulty_order [] categories Hb)
      as (categories1 & Hd & Hb1).
    rewrite Hd.
    rewrite (fold_store_distinct SStr
               (fun d => PList (b cat_id (SStr d)))).
    + now apply IH.
    + apply distinctb_filter, distinctb_difficulty_order.
    + reflexivity.
Qed.

(** The code builds the grouped view model of the specification. *)
Lemma group_challenges_by_spec (challenges : list pyval) :
  forallb well_formed challenges = true ->
  group_challenges challenges = Ok (PDict (grouped_by_spec challenges)).
Proof.
  intro Hwf. unfold group_challenges.
  destruct (collect_spec challenges [] Hwf) as (categories & Hc & Hp & Hk).
  rewrite Hc. cbn.
  rewrite (entries_spec (fun kc kd => bucket_of kc kd challenges)).
  - cbn. do 2 f_equal. rewrite Hk.
    rewrite (fold_store_distinct (fun k => k)).
    + reflexivity.
    + rewrite map_id. apply distinctb_distinct.
    + reflexivity.
  - intros. now rewrite Hp.
Qed.

Lemma lookup_difficulties (name ds : pyval) :
  lookup (SStr "difficulties")
    [(SStr "name", name); (SStr "difficulties", ds)] = Some ds.
Proof. reflexivity. Qed.

Lemma bucket_in_grouped_by_spec (challenges : list pyval)
  (cat_id d : scalar) (bucket : list pyval) :
  bucket_in_view (grouped_by_spec challenges) cat_id d bucket ->
  In cat_id (distinct (category_ids challenges))
  /\ In d (map SStr difficulty_order)
  /\ bucket = bucket_of cat_id d challenges
  /\ bucket <> [].
Proof.
  intros (entry & ds & Hin & Hds & Hb).
  unfold grouped_by_spec in Hin.
  apply in_map_iff in Hin as (k & [= <- <-] & Hk).
  rewrite lookup_difficulties in Hds. injection Hds as <-.
  unfold difficulties_by_spec in Hb.
  apply in_map_iff in Hb as (l & [= <- <-] & Hl).
  unfold present_labels in Hl. apply filter_In in Hl as [Hl Hne].
  repeat split; try assumption.
  - now apply in_map.
  - intro E. now rewrite E in Hne.
Qed.

Lemma has_key_fold_add_key (k : scalar) :
  forall ks acc,
    has_key k (fold_left add_key ks acc) = has_key k acc || has_key k ks.
Proof.
  induction ks as [|x ks IH]; intro acc; cbn [fold_left].
  - cbn. now rewrite orb_false_r.
  - rewrite IH, has_key_add_key. unfold has_key. cbn [existsb].
    now rewrite orb_assoc.
Qed.

Lemma in_bucket_has_category (challenges : list pyval) (c : pyval)
  (kc kd : scalar) :
  In c challenges -> challenge_keys c = Ok (kc, kd) ->
  has_key kc (category_ids challenges) = true.
Proof.
  intros Hin Hk. unfold has_key. apply existsb_exists.
  exists kc. split; [|apply scalar_eqb_refl].
  unfold category_ids. apply in_flat_map. exists c. split; [exact Hin|].
  rewrite Hk. now left.
Qed.

Example group_sample_challenges :
  group_challenges sample_challenges
  = Ok (PDict
          [(SInt 2,
            PDict [(SStr "name", PStr "Web");
                   (SStr "difficulties",
                    PDict [(SStr "easy", PList [sample_challenge 3 2 "easy"]);
                           (SStr "medium",
                            PList [sample_challenge 1 2 "medium";
                                   sample_challenge 5 2 "medium"])])]);
           (SInt 3,
            PDict [(SStr "name", PStr "Pwn");
                   (SStr "difficulties",
                    PDict [(SStr "hard",
                            PList [sample_challenge 2 3 "hard"])])])]).
Proof. reflexivity. Qed.

(** A challenge without a difficulty makes the loop raise [KeyError]. *)
Example group_malformed_challenge :
  group_challenges [PDict [(SStr "challenge_category_id", PInt 2)]]
  = Raise (Exn "KeyError" "'difficulty'").
Proof. reflexivity. Qed.



(** C8: a challenge whose [difficulty] is none of the five labels is in no
    difficulty bucket of the grouped view model; the grouping does not fail
    and the category of the challenge still has its entry. *)
Theorem unknown_difficulty_is_omitted (challenges : list pyval) (c : pyval)
  (kc kd : scalar) :
  forallb well_formed challenges = true ->
  In c challenges ->
  challenge_keys c = Ok (kc, kd) ->
  has_key kd (map SStr difficulty_order) = false ->
  exists grouped,
    group_challenges challenges = Ok (PDict grouped)
    /\ has_key kc (keys grouped) = true
    /\ forall cat_id d bucket,
         bucket_in_view grouped cat_id d bucket -> ~ In c bucket.
Proof.
  intros Hwf Hin Hk Hunknown. exists (grouped_by_spec challenges).
  split; [now apply group_challenges_by_spec|]. split.
  - unfold grouped_by_spec, keys. rewrite map_map. cbn [fst]. rewrite map_id.
    unfold distinct. rewrite has_key_fold_add_key.
    now rewrite (in_bucket_has_category challenges c kc kd Hin Hk).
  - intros cat_id d bucket Hv Hc.
    apply bucket_in_grouped_by_spec in Hv as (_ & Hd & -> & _).
    unfold bucket_of in Hc. apply filter_In in Hc as [_ Hc].
    unfold in_bucket in Hc. rewrite Hk in Hc.
    apply andb_true_iff in Hc as [_ Hc].
    rewrite scalar_eqb_sym in Hc.
    pose proof (has_key_false_in _ _ _ Hunknown Hd). congruence.
Qed.

Lemma unknown_difficulty_is_omitted_witness :
  exists grouped,
    group_challenges sample_challenges = Ok (PDict grouped)
    /\ has_key (SInt 2) (keys grouped) = true
    /\ forall cat_id d bucket,
         bucket_in_view grouped cat_id d bucket ->
         ~ In (sample_challenge 4 2 "insane") bucket.
Proof.
  apply (unknown_difficulty_is_omitted sample_challenges
           (sample_challenge 4 2 "insane") (SInt 2) (SStr "insane")).
  - reflexivity.
  - cbn. tauto.
  - reflexivity.
  - reflexivity.
Defined.

(** C9: every bucket of the grouped view model is the input list filtered to
    the challenges of that category and difficulty, so its entries keep
    their relative order and their multiplicity. *)
Theorem buckets_keep_input_order (challenges : list pyval) :
  forallb well_formed challenges = true ->
  exists grouped,
    group_challenges challenges = Ok (PDict grouped)
    /\ forall cat_id d bucket,
         bucket_in_view grouped cat_id d bucket ->
         bucket = filter (in_bucket cat_id d) challenges.
Proof.
  intro Hwf. exists (grouped_by_spec challenges).
  split; [now apply group_challenges_by_spec|].
  intros cat_id d bucket Hv.
  now apply bucket_in_grouped_by_spec in Hv as (_ & _ & -> & _).
Qed.

Lemma buckets_keep_input_order_witness :
  exists grouped,
    group_challenges sample_challenges = Ok (PDict grouped)
    /\ forall cat_id d bucket,
         bucket_in_view grouped cat_id d bucket ->
         bucket = filter (in_bucket cat_id d) sample_challenges.
Proof.
  apply (buckets_keep_input_order sample_challenges). reflexivity.
Defined.

(** ** Category lookup *)

Lemma lookup_category_entry (key id : scalar) (name : string) :
  In (key, name) categories -> scalar_eqb key id = true ->
  lookup id categories = Some name.
Proof.
  intros Hin He. rewrite <- (lookup_congr _ _ categories He).
  cbn in Hin.
  repeat (destruct Hin as [[= <- <-]|Hin]; [reflexivity|]).
  contradiction.
Qed.

(** C6: Category Lookup returns the display name the table maps an id to
    (an id counts as a key when it equals one), returns an id that is no
    key of the table unchanged, and does not raise; [name(2)] is [Web] and
    [name(999)] is 999. *)
Theorem category_lookup_or_passthrough (id : scalar) :
  (exists v, categorie_name (PScalar id) = Ok v)
  /\ (forall key name,
        In (key, name) categories -> scalar_eqb key id = true ->
        categorie_name (PScalar id) = Ok (PStr name))
  /\ (has_key id (keys categories) = false ->
      categorie_name (PScalar id) = Ok (PScalar id))
  /\ categorie_name (PInt 2) = Ok (PStr "Web")
  /\ categorie_name (PInt 999) = Ok (PInt 999).
Proof.
  rewrite categorie_name_scalar. unfold category_label.
  split; [eauto|]. split; [|split; [|split; reflexivity]].
  - intros key name Hin He.
    now rewrite (lookup_category_entry key id name Hin He).
  - rewrite lookup_has_key. now destruct (lookup id categories).
Qed.

Lemma category_lookup_or_passthrough_witness :
  categorie_name (PInt 21) = Ok (PStr "ICS")
  /\ categorie_name (PInt 6) = Ok (PInt 6)
  /\ categorie_name (PStr "2") = Ok (PStr "2").
Proof.
  split; [|split].
  - apply (proj1 (proj2 (category_lookup_or_passthrough (SInt 21)))
             (SInt 21) "ICS"); [cbn; tauto | reflexivity].
  - apply (proj1 (proj2 (proj2 (category_lookup_or_passthrough (SInt 6))))).
    reflexivity.
  - apply (proj1 (proj2 (proj2 (category_lookup_or_passthrough (SStr "2"))))).
    reflexivity.
Defined.

(** An id that cannot be hashed, such as a list, makes the lookup raise. *)
Example categorie_name_unhashable :
  categorie_name (PList [PInt 2])
  = Raise (Exn "TypeError" "unhashable type: 'list'").
Proof. reflexivity. Qed.

(** ** The scan of the challenge detail *)





(** ** The bridge *)

Section BridgeProperties.

Variable W : Type.
Variable R : remote W.

Lemma keeps_calls_ret {A} (a : A) : keeps_calls (@ret W A a).
Proof. intro s. reflexivity. Qed.

Lemma keeps_calls_lift {A} (r : result A) : keeps_calls (@lift W A r).
Proof. intro s. reflexivity. Qed.

Lemma keeps_calls_perform {A} (ev : wire_event) (op : W -> result A * W) :
  keeps_calls (perform W ev op).
Proof. intro s. unfold perform. now destruct (op (world s)). Qed.

Lemma keeps_calls_parse_json (text : string) :
  keeps_calls (parse_json W R text).
Proof. intro s. reflexivity. Qed.

Lemma keeps_calls_bind {A B} (m : M W A) (k : A -> M W B) :
  keeps_calls m -> (forall a, keeps_calls (k a)) -> keeps_calls (bind m k).
Proof.
  intros Hm Hk s. unfold bind. specialize (Hm s).
  destruct (m s) as [[a|e] s1]; cbn in *; [|exact Hm].
  now rewrite Hk.
Qed.

Lemma keeps_calls_task_group {A} (block : M W A) :
  keeps_calls block -> keeps_calls (task_group block).
Proof.
  intros Hb s. unfold task_group. specialize (Hb s).
  now destruct (block s) as [[a|e] s1].
Qed.

Lemma keeps_calls_async_with {A B} (enter : M W A) (leave : M W unit)
  (body : A -> M W B) :
  keeps_calls enter -> keeps_calls leave ->
  (forall a, keeps_calls (body a)) ->
  keeps_calls (async_with enter leave body).
Proof.
  intros He Hl Hb. apply keeps_calls_task_group. intro s.
  specialize (He s). destruct (enter s) as [[a|e] s1]; cbn in *; [|exact He].
  specialize (Hb a s1). destruct (body a s1) as [r s2].
  specialize (Hl s2). destruct (leave s2) as [[u|e] s3]; cbn in *; congruence.
Qed.

Lemma keeps_calls__mcp_call (token : option string) (tool : string)
  (params : pyval) :
  keeps_calls (_mcp_call W R token tool params).
Proof.
  unfold _mcp_call.
  apply keeps_calls_async_with; try apply keeps_calls_perform. intros _.
  apply keeps_calls_async_with; try apply keeps_calls_ret. intros _.
  apply keeps_calls_bind; [apply keeps_calls_perform|]. intros _.
  destruct (String.eqb tool "list_tools").
  - apply keeps_calls_bind; [apply keeps_calls_perform|]. intro.
    apply keeps_calls_ret.
  - apply keeps_calls_bind; [apply keeps_calls_perform|]. intro.
    apply keeps_calls_bind; [apply keeps_calls_lift|]. intro.
    apply keeps_calls_bind; [apply keeps_calls_parse_json|]. intro.
    apply keeps_calls_ret.
Qed.

(** A bridge call returns a reply and is recorded once. *)
Lemma mcp_call_returns (token : option string) (tool : string)
  (params : pyval) (s : state W) :
  exists r s',
    mcp_call W R token tool params s = (Ok r, s')
    /\ calls s' = (calls s ++ [BridgeCall token tool params])%list.
Proof.
  unfold mcp_call.
  pose proof (keeps_calls__mcp_call token tool
                (if truthy params then params else PDict [])
                (State (world s)
                   (calls s ++ [BridgeCall token tool params]) (wire s)))
    as Hk.
  destruct (_mcp_call W R token tool _ _) as [[r|e] s1]; cbn in Hk;
    eexists _, _; split; try reflexivity; exact Hk.
Qed.

(** Case analysis on the next operation of a bridge program. *)
Ltac next_op :=
  match goal with
  | |- context [transport_open ?r ?a ?w] =>
      let e := fresh "e" in let w' := fresh "w" in
      destruct (transport_open r a w) as [[[]|e] w']
  | |- context [session_initialize ?r ?w] =>
      let e := fresh "e" in let w' := fresh "w" in
      destruct (session_initialize r w) as [[[]|e] w']
  | |- context [session_list_tools ?r ?w] =>
      let n := fresh "names" in let e := fresh "e" in let w' := fresh "w" in
      let E := fresh "Hlist" in
      destruct (session_list_tools r w) as [[n|e] w'] eqn:E
  | |- context [session_call_tool ?r ?t ?p ?w] =>
      let c := fresh "items" in let e := fresh "e" in let w' := fresh "w" in
      let E := fresh "Hcall" in
      destruct (session_call_tool r t p w) as [[c|e] w'] eqn:E
  | |- context [transport_close ?r ?w] =>
      let e := fresh "e" in let w' := fresh "w" in
      destruct (transport_close r w) as [[[]|e] w']
  end; cbn [world calls wire fst snd].

Ltac unfold_bridge :=
  unfold _mcp_call, async_with, task_group, bind, perform, parse_json, ret,
    lift;
  cbn [world calls wire fst snd].

Lemma task_group_raises {A} (block : M W A) (s s1 : state W) (e : exn) :
  task_group block s = (Raise e, s1) ->
  e = Exn "ExceptionGroup" "unhandled errors in a TaskGroup (1 sub-exception)".
Proof.
  unfold task_group. destruct (block s) as [[a|e'] s']; [discriminate|].
  now intros [= <- _].
Qed.

(** Whatever fault leaves the exchange, it is an exception group. *)
Lemma _mcp_call_raises_group (token : option string) (tool : string)
  (params : pyval) (s s1 : state W) (e : exn) :
  _mcp_call W R token tool params s = (Raise e, s1) ->
  e = Exn "ExceptionGroup" "unhandled errors in a TaskGroup (1 sub-exception)".
Proof.
  unfold _mcp_call. unfold async_with at 1. apply task_group_raises.
Qed.

Lemma mcp_call_of_exchange (token : option string) (tool : string)
  (params : pyval) (s : state W) :
  fst (mcp_call W R token tool params s)
  = match fst (_mcp_call W R token tool
                 (if truthy params then params else PDict [])
                 (State (world s) (calls s ++ [BridgeCall token tool params])
                    (wire s))) with
    | Ok r => Ok r
    | Raise e => Ok (Data (error_record e))
    end.
Proof.
  unfold mcp_call. now destruct (_mcp_call W R token tool _ _) as [[r|e] s1].
Qed.

(** C2, as the code has it: whatever the token, the tool and the
    parameters, [mcp_call] returns a value and never raises.  When the
    exchange with the remote service raises, the value is the record with
    [error] set to [exception] and [error_description] set to the message
    of the exception that reaches the [except] clause.  A fault of the
    connection, of the handshake, of the tool invocation or of the JSON
    parsing reaches it wrapped in an exception group, so the description is
    the message of the group and not the message of the fault. *)
Theorem mcp_call_never_raises (token : option string) (tool : string)
  (params : pyval) (s : state W) :
  (exists r s', mcp_call W R token tool params s = (Ok r, s'))
  /\ (forall e s1,
        _mcp_call W R token tool (if truthy params then params else PDict [])
          (State (world s) (calls s ++ [BridgeCall token tool params])
             (wire s))
        = (Raise e, s1) ->
        mcp_call W R token tool params s
        = (Ok (Data (PDict [(SStr "error", PStr "exception");
                            (SStr "error_description", PStr (exn_str e))])),
           s1)
        /\ exn_str e = "unhandled errors in a TaskGroup (1 sub-exception)")
  /\ (forall e w,
        transport_open R (bearer token) (world s) = (Raise e, w) ->
        fst (mcp_call W R token tool params s)
        = Ok (Data (error_record (exception_group e))))
  /\ (forall e w1 w2,
        transport_open R (bearer token) (world s) = (Ok tt, w1) ->
        session_initialize R w1 = (Raise e, w2) ->
        fst (mcp_call W R token tool params s)
        = Ok (Data (error_record (exception_group e))))
  /\ (tool <> "list_tools" ->
      forall e w1 w2 w3,
        transport_open R (bearer token) (world s) = (Ok tt, w1) ->
        session_initialize R w1 = (Ok tt, w2) ->
        session_call_tool R tool (if truthy params then params else PDict [])
          w2 = (Raise e, w3) ->
        fst (mcp_call W R token tool params s)
        = Ok (Data (error_record (exception_group e))))
  /\ (tool <> "list_tools" ->
      forall e w1 w2 w3 text rest,
        transport_open R (bearer token) (world s) = (Ok tt, w1) ->
        session_initialize R w1 = (Ok tt, w2) ->
        session_call_tool R tool (if truthy params then params else PDict [])
          w2 = (Ok (TextContent text :: rest), w3) ->
        json_loads R text = Raise e ->
        fst (mcp_call W R token tool params s)
        = Ok (Data (error_record (exception_group e)))).
Proof.
  split; [|split; [|split; [|split; [|split]]]].
  - destruct (mcp_call_returns token tool params s) as (r & s' & H & _).
    eauto.
  - intros e s1 H. split.
    + unfold mcp_call. now rewrite H.
    + now rewrite (_mcp_call_raises_group _ _ _ _ _ _ H).
  - intros e w H. rewrite mcp_call_of_exchange. unfold_bridge. now rewrite H.
  - intros e w1 w2 H1 H2. rewrite mcp_call_of_exchange. unfold_bridge.
    rewrite H1. cbn [world calls wire]. rewrite H2. cbn [world calls wire].
    now destruct (transport_close R w2) as [[[]|e'] w3].
  - intros Hneq e w1 w2 w3 H1 H2 H3. apply String.eqb_neq in Hneq.
    rewrite mcp_call_of_exchange. unfold_bridge. rewrite Hneq.
    rewrite H1. cbn [world calls wire]. rewrite H2. cbn [world calls wire].
    rewrite H3. cbn [world calls wire].
    now destruct (transport_close R w3) as [[[]|e'] w4].
  - intros Hneq e w1 w2 w3 text rest H1 H2 H3 H4.
    apply String.eqb_neq in Hneq.
    rewrite mcp_call_of_exchange. unfold_bridge. rewrite Hneq.
    rewrite H1. cbn [world calls wire]. rewrite H2. cbn [world calls wire].
    rewrite H3. cbn [world calls wire first_text]. rewrite H4.
    cbn [world calls wire].
    now destruct (transport_close R w3) as [[[]|e'] w4].
Qed.

(** C7: for [list_tools] the bridge sends no tool invocation and parses no
    content, and what it returns is the listing the session produced; for
    every other name it invokes that tool with the given parameters and
    returns the text of the first content item parsed as JSON. *)
Theorem list_tools_is_raw_other_tools_are_parsed (token : option string)
  (tool : string) (params : pyval) (s : state W) :
  (forall r s',
      _mcp_call W R token "list_tools" params s = (r, s') ->
      exists evs,
        wire s' = (wire s ++ evs)%list
        /\ forallb (fun ev => negb (is_tool_traffic ev)) evs = true
        /\ forall v, r = Ok v ->
                     exists names w w',
                       v = ToolListing names
                       /\ session_list_tools R w = (Ok names, w'))
  /\ (forall w1 w2 w3 w4 names,
        transport_open R (bearer token) (world s) = (Ok tt, w1) ->
        session_initialize R w1 = (Ok tt, w2) ->
        session_list_tools R w2 = (Ok names, w3) ->
        transport_close R w3 = (Ok tt, w4) ->
        _mcp_call W R token "list_tools" params s
        = (Ok (ToolListing names),
           State w4 (calls s)
             (wire s ++ [WOpen (bearer token); WInitialize; WListTools;
                         WClose])))
  /\ (tool <> "list_tools" ->
      forall w1 w2 w3 w4 text rest v,
        transport_open R (bearer token) (world s) = (Ok tt, w1) ->
        session_initialize R w1 = (Ok tt, w2) ->
        session_call_tool R tool params w2
        = (Ok (TextContent text :: rest), w3) ->
        json_loads R text = Ok v ->
        transport_close R w3 = (Ok tt, w4) ->
        _mcp_call W R token tool params s
        = (Ok (Data v),
           State w4 (calls s)
             (wire s ++ [WOpen (bearer token); WInitialize;
                         WCallTool tool params; WJsonLoads text; WClose])))
  /\ (tool <> "list_tools" ->
      forall r s',
        _mcp_call W R token tool params s = (Ok r, s') ->
        exists text rest v w w',
          r = Data v
          /\ session_call_tool R tool params w
             = (Ok (TextContent text :: rest), w')
          /\ json_loads R text = Ok v
          /\ In (WCallTool tool params) (wire s')).
Proof.
  split; [|split; [|split]].
  - intros r s'. unfold_bridge. cbn [String.eqb Ascii.eqb Bool.eqb].
    next_op.
    2: { intros [= <- <-]. exists [WOpen (bearer token)].
         split; [reflexivity|]. split; [reflexivity | discriminate]. }
    next_op.
    2: { next_op; intros [= <- <-]; cbn [wire];
         exists [WOpen (bearer token); WInitialize; WClose];
         (split; [now rewrite <- !app_assoc|]);
         (split; [reflexivity | discriminate]). }
    next_op; next_op; intros [= <- <-]; cbn [wire];
      exists [WOpen (bearer token); WInitialize; WListTools; WClose];
      (split; [now rewrite <- !app_assoc|]);
      (split; [reflexivity|]); try discriminate.
    intros v [= <-]. eauto.
  - intros w1 w2 w3 w4 names H1 H2 H3 H4. unfold_bridge.
    cbn [String.eqb Ascii.eqb Bool.eqb].
    rewrite H1. cbn [world calls wire]. rewrite H2. cbn [world calls wire].
    rewrite H3. cbn [world calls wire]. rewrite H4.
    now rewrite <- !app_assoc.
  - intros Hneq w1 w2 w3 w4 text rest v H1 H2 H3 H4 H5.
    apply String.eqb_neq in Hneq. unfold_bridge. rewrite Hneq.
    rewrite H1. cbn [world calls wire]. rewrite H2. cbn [world calls wire].
    rewrite H3. cbn [world calls wire first_text]. rewrite H4.
    cbn [world calls wire]. rewrite H5.
    now rewrite <- !app_assoc.
  - intros Hneq r s'. apply String.eqb_neq in Hneq.
    unfold_bridge. rewrite Hneq.
    next_op; [|discriminate].
    next_op; [|next_op; discriminate].
    next_op; [|next_op; discriminate].
    destruct items as [|[text|] rest]; cbn [first_text];
      [next_op; discriminate | | next_op; discriminate].
    destruct (json_loads R text) as [v|e] eqn:Hjson;
      [|next_op; discriminate].
    next_op; [|discriminate].
    intros [= <- <-]. exists text, rest, v. eexists _, _.
    split; [reflexivity|]. split; [exact Hcall|]. split; [exact Hjson|].
    cbn [wire]. rewrite !in_app_iff. cbn. tauto.
Qed.

End BridgeProperties.

(** ** The handlers *)

Section HandlerProperties.

Variable W : Type.
Variable R : remote W.

(** The guarded routes answer a request without a token by a redirect to
    the login page, and call nothing. *)
Lemma home_requires_token (req : request) (s : state W) :
  no_token (field "token" (cookies req)) = true ->
  home W R req s = (Ok (Redirect "/login" None), s)
  /\ list_tools W R req s = (Ok (Redirect "/login" None), s).
Proof.
  intro H. unfold home, list_tools. now rewrite H.
Qed.

(** The event view shows the grouped view model of the specification. *)
Lemma event_renders_grouped (event_id : Z) (req : request) (s s1 : state W)
  (d : assoc pyval) (items : list pyval) :
  mcp_call W R (field "token" (cookies req)) "retrieve_ctf"
    (PDict [(SStr "ctf_id", PInt event_id)]) s
  = (Ok (Data (PDict d)), s1) ->
  has_key (SStr "error") (keys d) = false ->
  get (PDict d) "challenges" (PList []) = Ok (PList items) ->
  forallb well_formed items = true ->
  exists event_name,
    event W R event_id req s
    = (Ok (Template "event.html"
             [("event_name", TVal event_name);
              ("grouped", TVal (PDict (grouped_by_spec items)));
              ("difficulty_order", TVal (PList (map PStr difficulty_order)));
              ("event_id", TVal (PInt event_id))]),
       s1).
Proof.
  intros Hcall Herr Hget Hwf. unfold event, bind. rewrite Hcall.
  unfold lift, reply_contains, contains. rewrite Herr.
  unfold reply_get. rewrite Hget. cbn [iterate].
  rewrite (group_challenges_by_spec items Hwf).
  unfold get. destruct (lookup (SStr "name") d); eexists; reflexivity.
Qed.




(** C3 fails on [join]: without a [token] cookie the handler does not
    redirect to the login page before anything else; it calls the bridge
    for the teams, with no token. *)
Theorem join_without_token_calls_bridge (event_id : Z) (req : request)
  (s : state W) :
  field "token" (cookies req) = None ->
  exists out s' later,
    join W R event_id req s = (out, s')
    /\ calls s'
       = (calls s ++ BridgeCall None "retrieve_my_teams" PNone :: later)%list.
Proof.
  intro Hnone. unfold join, bind. rewrite Hnone.
  destruct (mcp_call_returns W R None "retrieve_my_teams" PNone s)
    as (teams & s1 & Hteams & Hc1).
  rewrite Hteams. unfold lift.
  destruct (reply_getitem0 teams) as [first|e];
    [|exists (Raise e), s1, []; now split].
  destruct (get first "id" PNone) as [team_id|e];
    [|exists (Raise e), s1, []; now split].
  destruct (mcp_call_returns W R None "join_ctf_event"
              (join_params event_id team_id) s1)
    as (r & s2 & Hjoin & Hc2).
  rewrite Hjoin.
  destruct (reply_contains "error" r) as [[|]|e]; unfold ret;
    eexists _, s2, [_]; (split; [reflexivity|]);
    now rewrite Hc2, Hc1, <- app_assoc.
Qed.

End HandlerProperties.

(** ** The handlers on the sample remote *)

Lemma mcp_call_never_raises_witness :
  fst (mcp_call nat sample_remote None "retrieve_my_teams" PNone sample_state)
  = Ok (Data (PDict [(SStr "error", PStr "exception");
                     (SStr "error_description",
                      PStr "unhandled errors in a TaskGroup (1 sub-exception)")]))
  /\ fst (mcp_call nat sample_remote (Some "secret") "get_download_link"
            (PDict [(SStr "challenge_id", PInt 3)]) sample_state)
     = Ok (Data (PDict [(SStr "error", PStr "exception");
                        (SStr "error_description",
                         PStr "unhandled errors in a TaskGroup (1 sub-exception)")]))
  /\ fst (mcp_call nat sample_remote (Some "secret") "retrieve_ctf"
            (PDict [(SStr "ctf_id", PInt 5)])
            (State 0%nat [] []))
     = Ok (Data sample_details).
Proof.
  split; [|split].
  - apply (proj1 (proj2 (proj2 (mcp_call_never_raises nat sample_remote None
                                  "retrieve_my_teams" PNone sample_state)))
             (Exn "HTTPStatusError" "401 Unauthorized") 0%nat).
    reflexivity.
  - apply (proj1 (proj2 (proj2 (proj2 (proj2
             (mcp_call_never_raises nat sample_remote (Some "secret")
                "get_download_link" (PDict [(SStr "challenge_id", PInt 3)])
                sample_state)))))
             ltac:(discriminate)
             (Exn "McpError" "challenge has no files")
             0%nat 0%nat 1%nat); reflexivity.
  - reflexivity.
Defined.

(** C2 as the specification words it fails: the tool invocation of the
    sample remote raises a fault whose message is
    [challenge has no files], and the description of the record is not
    that message. *)
Lemma fault_message_is_not_the_description :
  ~ (forall (W : Type) (R : remote W) (token : option string)
            (tool : string) (params : pyval) (s : state W) (e : exn)
            (w1 w2 w3 w4 : W),
        tool <> "list_tools" ->
        transport_open R (bearer token) (world s) = (Ok tt, w1) ->
        session_initialize R w1 = (Ok tt, w2) ->
        session_call_tool R tool (if truthy params then params else PDict [])
          w2 = (Raise e, w3) ->
        transport_close R w3 = (Ok tt, w4) ->
        fst (mcp_call W R token tool params s)
        = Ok (Data (PDict [(SStr "error", PStr "exception");
                           (SStr "error_description", PStr (exn_str e))]))).
Proof.
  intro H.
  specialize (H nat sample_remote (Some "secret") "get_download_link"
                (PDict [(SStr "challenge_id", PInt 3)]) sample_state
                (Exn "McpError" "challenge has no files")
                0%nat 0%nat 1%nat 1%nat
                ltac:(discriminate) eq_refl eq_refl eq_refl eq_refl).
  vm_compute in H. discriminate H.
Qed.

(** A response without content ends in the same kind of record. *)
Example mcp_call_empty_content :
  fst (mcp_call nat sample_remote (Some "secret") "submit_flag"
         (PDict [(SStr "challenge_id", PInt 3); (SStr "flag", PStr "HTB{}")])
         sample_state)
  = Ok (Data (error_record
                (exception_group
                   (Exn "IndexError" "list index out of range")))).
Proof. reflexivity. Qed.

Lemma list_tools_is_raw_other_tools_are_parsed_witness :
  _mcp_call nat sample_remote (Some "secret") "list_tools" (PDict [])
    sample_state
  = (Ok (ToolListing ["retrieve_ctf"; "submit_flag"]),
     State 1%nat []
       [WOpen "Bearer secret"; WInitialize; WListTools; WClose])
  /\ _mcp_call nat sample_remote (Some "secret") "retrieve_my_teams"
       (PDict []) sample_state
     = (Ok (Data sample_teams),
        State 1%nat []
          [WOpen "Bearer secret"; WInitialize;
           WCallTool "retrieve_my_teams" (PDict []); WJsonLoads "<teams>";
           WClose]).
Proof.
  split.
  - apply (proj1 (proj2 (list_tools_is_raw_other_tools_are_parsed nat
                           sample_remote (Some "secret") "list_tools"
                           (PDict []) sample_state))
             0%nat 0%nat 1%nat 1%nat); reflexivity.
  - apply (proj1 (proj2 (proj2 (list_tools_is_raw_other_tools_are_parsed nat
                                  sample_remote (Some "secret")
                                  "retrieve_my_teams" (PDict [])
                                  sample_state)))
             ltac:(discriminate) 0%nat 0%nat 1%nat 1%nat "<teams>" []);
      reflexivity.
Defined.


Example challenge_detail_sample :
  fst (challenge nat sample_remote 5 3 sample_request sample_state)
  = Ok (challenge_view 5 3 (sample_challenge 3 2 "easy")
          (Data (error_record
                   (exception_group
                      (Exn "McpError" "challenge has no files"))))).
Proof. reflexivity. Qed.

Example challenge_detail_absent :
  fst (challenge nat sample_remote 5 99 sample_request sample_state)
  = Ok (challenge_view 5 99 (PDict [])
          (Data (error_record
                   (exception_group
                      (Exn "McpError" "challenge has no files"))))).
Proof. reflexivity. Qed.

(** An [id] of [true] equals the challenge id 1, as in Python. *)
Example find_challenge_boolean_id :
  find_challenge 1 [PDict [(SStr "id", PTrue)]]
  = Ok (PDict [(SStr "id", PTrue)]).
Proof. reflexivity. Qed.



Example join_sample :
  fst (join nat sample_remote 5 sample_request sample_state)
  = Ok (Redirect "/" None).
Proof. reflexivity. Qed.

Lemma join_without_token_calls_bridge_witness :
  exists out s' later,
    join nat sample_remote 5 anonymous_request sample_state = (out, s')
    /\ calls s' = BridgeCall None "retrieve_my_teams" PNone :: later.
Proof.
  apply (join_without_token_calls_bridge nat sample_remote 5
           anonymous_request sample_state).
  reflexivity.
Defined.

(** Without a token the sample remote rejects the session, the teams are an
    error record, and [teams[0]] raises: neither a redirect to the login
    page nor an error view. *)
Example join_anonymous_raises :
  join nat sample_remote 5 anonymous_request sample_state
  = (Raise (Exn "KeyError" "0"),
     State 0%nat [BridgeCall None "retrieve_my_teams" PNone]
       [WOpen "Bearer None"]).
Proof. reflexivity. Qed.

Example home_anonymous_redirects :
  home nat sample_remote anonymous_request sample_state
  = (Ok (Redirect "/login" None), sample_state).
Proof. reflexivity. Qed.

(** * Further properties of the code *)

(** ** Sessions of the bridge *)

Ltac bridge_unfold :=
  unfold _mcp_call, async_with, task_group, bind, perform, parse_json, ret,
    lift;
  cbn [world calls wire fst snd].

Ltac bridge_step :=
  match goal with
  | |- context [session_initialize ?r ?w] =>
      destruct (session_initialize r w) as [[[]|?] ?]
  | |- context [session_list_tools ?r ?w] =>
      destruct (session_list_tools r w) as [[?|?] ?]
  | |- context [session_call_tool ?r ?t ?p ?w] =>
      destruct (session_call_tool r t p w) as [[[|[?|] ?]|?] ?]
  | |- context [json_loads ?r ?t] =>
      destruct (json_loads r t) as [?|?]
  | |- context [transport_close ?r ?w] =>
      destruct (transport_close r w) as [[[]|?] ?]
  end; cbn [world calls wire fst snd first_text].

Section BridgeSessions.

Variable W : Type.
Variable R : remote W.

Lemma session_body_cases (tool : string) (params : pyval) :
  (tool = "list_tools" -> session_body tool params [WListTools])
  /\ (tool <> "list_tools" -> session_body tool params [WCallTool tool params])
  /\ (tool <> "list_tools" ->
      forall text,
        session_body tool params [WCallTool tool params; WJsonLoads text]).
Proof.
  unfold session_body. repeat split; intros; eauto 7.
Qed.

Lemma _mcp_call_session (token : option string) (tool : string)
  (params : pyval) (s : state W) :
  (forall e w,
      transport_open R (bearer token) (world s) = (Raise e, w) ->
      wire (snd (_mcp_call W R token tool params s))
      = (wire s ++ [WOpen (bearer token)])%list)
  /\ (forall w,
        transport_open R (bearer token) (world s) = (Ok tt, w) ->
        exists mid,
          wire (snd (_mcp_call W R token tool params s))
          = (wire s ++ WOpen (bearer token) :: WInitialize :: mid ++ [WClose])
              %list
          /\ session_body tool params mid).
Proof.
  destruct (session_body_cases tool params) as (Hlist & Hcall & Hparse).
  split.
  - intros e w H. bridge_unfold. now rewrite H.
  - intros w H. bridge_unfold. rewrite H. cbn [world calls wire fst snd].
    destruct (String.eqb_spec tool "list_tools") as [Heq|Hneq].
    + repeat bridge_step;
        first [ exists [WListTools]; split;
                  [cbn; rewrite <- !app_assoc; reflexivity | now apply Hlist]
              | exists []; split;
                  [cbn; rewrite <- !app_assoc; reflexivity | now left] ].
    + repeat bridge_step;
        first [ exists [WCallTool tool params; WJsonLoads text]; split;
                  [cbn; rewrite <- !app_assoc; reflexivity | now apply Hparse]
              | exists [WCallTool tool params]; split;
                  [cbn; rewrite <- !app_assoc; reflexivity | now apply Hcall]
              | exists []; split;
                  [cbn; rewrite <- !app_assoc; reflexivity | now left] ].
Qed.

(** The wrapper records nothing on the wire itself. *)
Lemma mcp_call_wire (token : option string) (tool : string) (params : pyval)
  (s : state W) :
  wire (snd (mcp_call W R token tool params s))
  = wire (snd (_mcp_call W R token tool
                 (if truthy params then params else PDict [])
                 (State (world s) (calls s ++ [BridgeCall token tool params])
                    (wire s)))).
Proof.
  unfold mcp_call. now destruct (_mcp_call W R token tool _ _) as [[r|e] s1].
Qed.

(** Every bridge call opens one session of its own, with the token as
    bearer credential, and a session that was opened is initialized first
    and closed last, whether the exchange in between fails or not; a refused
    connection leaves nothing else on the wire. *)
Theorem session_is_opened_once_and_closed (token : option string)
  (tool : string) (params : pyval) (s : state W) :
  (forall e w,
      transport_open R (bearer token) (world s) = (Raise e, w) ->
      wire (snd (mcp_call W R token tool params s))
      = (wire s ++ [WOpen (bearer token)])%list)
  /\ (forall w,
        transport_open R (bearer token) (world s) = (Ok tt, w) ->
        exists mid,
          wire (snd (mcp_call W R token tool params s))
          = (wire s ++ WOpen (bearer token) :: WInitialize :: mid ++ [WClose])
              %list
          /\ forall ev, In ev mid ->
                        ev <> WClose /\ ev <> WInitialize
                        /\ forall a, ev <> WOpen a).
Proof.
  rewrite mcp_call_wire.
  destruct (_mcp_call_session token tool
              (if truthy params then params else PDict [])
              (State (world s) (calls s ++ [BridgeCall token tool params])
                 (wire s))) as [Hfail Hok].
  split; [exact Hfail|].
  intros w H. destruct (Hok w H) as (mid & Hw & Hmid).
  exists mid. split; [exact Hw|].
  intros ev Hin.
  destruct Hmid as [->|[[_ ->]|[_ [->|[text ->]]]]]; cbn in Hin;
    repeat (destruct Hin as [<-|Hin]); try contradiction;
    repeat split; try discriminate; intros a; discriminate.
Qed.

(** The only tool a bridge call can invoke is the named one, at most once
    and never for [list_tools]; it is invoked with the parameters of the
    caller, or with an empty mapping when those are [None] or otherwise
    falsy. *)
Theorem bridge_invokes_named_tool_with_params_or_empty
  (token : option string) (tool : string) (params : pyval) (s : state W) :
  exists evs,
    wire (snd (mcp_call W R token tool params s)) = (wire s ++ evs)%list
    /\ (forall t p,
          In (WCallTool t p) evs ->
          t = tool /\ tool <> "list_tools"
          /\ p = (if truthy params then params else PDict []))
    /\ (List.length (filter is_tool_traffic evs) <= 2)%nat
    /\ (List.length
          (filter (fun ev => match ev with WCallTool _ _ => true | _ => false end)
             evs) <= 1)%nat.
Proof.
  rewrite mcp_call_wire.
  destruct (_mcp_call_session token tool
              (if truthy params then params else PDict [])
              (State (world s) (calls s ++ [BridgeCall token tool params])
                 (wire s))) as [Hfail Hok].
  cbn [world wire] in *.
  destruct (transport_open R (bearer token) (world s)) as [[[]|e] w] eqn:Ho.
  - destruct (Hok w eq_refl) as (mid & Hw & Hmid).
    eexists. split; [exact Hw|].
    destruct Hmid as [->|[[_ ->]|[Hneq [->|[text ->]]]]]; cbn;
      (split; [|split; lia]); intros t p Hin;
      repeat (destruct Hin as [Hin|Hin]; try discriminate Hin);
      try contradiction; injection Hin as <- <-; auto.
  - eexists. split; [exact (Hfail e w eq_refl)|]. cbn.
    split; [|split; lia]. intros t p [Hin|[]]. discriminate.
Qed.

End BridgeSessions.

(** ** What the handlers send *)

Section Forwarding.

Variable W : Type.
Variable R : remote W.

Lemma forwards_ret {A} (token : option string) (n : nat) (a : A) :
  forwards token n (@ret W A a).
Proof.
  intro s. exists [], []. cbn. rewrite !app_nil_r.
  repeat split; auto with arith.
Qed.

Lemma forwards_bind_lift {A B} (token : option string) (n : nat)
  (r : result A) (k : A -> M W B) :
  (forall a, forwards token n (k a)) ->
  forwards token n (bind (lift r) k).
Proof.
  intros Hk s. unfold bind, lift. destruct r as [a|e]; [apply Hk|].
  exists [], []. cbn. rewrite !app_nil_r. repeat split; auto with arith.
Qed.

Lemma session_events_open (token : option string) (tool : string)
  (params : pyval) (s : state W) :
  exists evs,
    wire (snd (mcp_call W R token tool params s)) = (wire s ++ evs)%list
    /\ Forall (opens_as token) evs.
Proof.
  rewrite mcp_call_wire.
  destruct (_mcp_call_session W R token tool
              (if truthy params then params else PDict [])
              (State (world s) (calls s ++ [BridgeCall token tool params])
                 (wire s))) as [Hfail Hok].
  cbn [world wire] in *.
  destruct (transport_open R (bearer token) (world s)) as [[[]|e] w] eqn:Ho.
  - destruct (Hok w eq_refl) as (mid & Hw & Hmid).
    eexists. split; [exact Hw|].
    constructor; [reflexivity|]. constructor; [exact I|].
    apply Forall_app. split; [|now repeat constructor].
    destruct Hmid as [->|[[_ ->]|[_ [->|[text ->]]]]];
      now repeat constructor.
  - eexists. split; [exact (Hfail e w eq_refl)|]. now repeat constructor.
Qed.

Lemma forwards_bind_call {B} (token : option string) (n : nat)
  (tool : string) (params : pyval) (k : reply -> M W B) :
  (forall r, forwards token n (k r)) ->
  forwards token (S n) (bind (mcp_call W R token tool params) k).
Proof.
  intros Hk s. unfold bind.
  destruct (mcp_call_returns W R token tool params s) as (r & s1 & Hc & Hcalls).
  destruct (session_events_open token tool params s) as (evs1 & Hw & Hopen).
  rewrite Hc in *. cbn [snd] in Hw.
  destruct (Hk r s1) as (new & evs2 & Hc2 & Hw2 & Hlen & Htok & Hopen2).
  exists (BridgeCall token tool params :: new), (evs1 ++ evs2)%list.
  rewrite Hc2, Hw2, Hcalls, Hw, <- !app_assoc. cbn.
  repeat split; auto with arith.
  now apply Forall_app.
Qed.

Ltac forwarding :=
  repeat first
    [ apply forwards_ret
    | apply forwards_bind_lift; intro
    | apply forwards_bind_call; intro
    | match goal with
      | |- forwards _ _ (if ?b then _ else _) => destruct b
      | |- forwards _ _ (match ?o with Some _ => _ | None => _ end) =>
          destruct o
      end ].

(** Whatever the route and the request, the handler makes at most two
    bridge calls, every one of them with the [token] cookie of the request
    and no other credential, and every session it opens carries that cookie
    as bearer; the two login routes make none. *)
Theorem handlers_forward_the_cookie_token (r : route) (req : request)
  (s : state W) :
  exists new evs,
    calls (snd (handle R r req s)) = (calls s ++ new)%list
    /\ wire (snd (handle R r req s)) = (wire s ++ evs)%list
    /\ (List.length new <= 2)%nat
    /\ Forall (fun c => call_token c = field "token" (cookies req)) new
    /\ Forall (opens_as (field "token" (cookies req))) evs
    /\ (r = GetLogin \/ r = PostLogin -> new = [] /\ evs = []).
Proof.
  assert (Hlogin : forall r', r' = GetLogin \/ r' = PostLogin ->
            snd (handle R r' req s) = s).
  { intros r' [->| ->]; cbn; [reflexivity|]. unfold login.
    destruct (field "token" (form req)) as [t|]; [|reflexivity].
    now destruct (String.eqb t ""). }
  assert (H : forwards (field "token" (cookies req)) 2 (handle R r req)).
  { destruct r; unfold handle, list_tools, home, home_login, login, join,
      event, scoreboard, challenge, start_container, stop_container,
      submit_flag; cbv zeta; forwarding. }
  destruct (H s) as (new & evs & Hc & Hw & Hlen & Htok & Hopen).
  exists new, evs. repeat split; try assumption.
  - destruct (Hlogin r H0) as []. rewrite (Hlogin r H0) in Hc.
    rewrite <- (app_nil_r (calls s)) in Hc at 1.
    now apply app_inv_head in Hc.
  - rewrite (Hlogin r H0) in Hw.
    rewrite <- (app_nil_r (wire s)) in Hw at 1.
    now apply app_inv_head in Hw.
Qed.

End Forwarding.

(** ** Edge behaviour of the handlers *)

Section HandlerEdges.

Variable W : Type.
Variable R : remote W.

(** A connection that is refused, or that fails at the handshake, gives
    the error record of an exception group. *)
Lemma mcp_call_unreachable (token : option string) (tool : string)
  (params : pyval) (s : state W) :
  (exists e w, transport_open R (bearer token) (world s) = (Raise e, w))
  \/ (exists w1 e w2,
        transport_open R (bearer token) (world s) = (Ok tt, w1)
        /\ session_initialize R w1 = (Raise e, w2)) ->
  exists s1,
    mcp_call W R token tool params s
    = (Ok (Data (PDict [(SStr "error", PStr "exception");
                        (SStr "error_description",
                         PStr "unhandled errors in a TaskGroup (1 sub-exception)")])),
       s1).
Proof.
  intros [(e & w & H)|(w1 & e & w2 & H1 & H2)]; unfold mcp_call; bridge_unfold.
  - rewrite H. eauto.
  - rewrite H1. cbn [world calls wire]. rewrite H2. cbn [world calls wire].
    destruct (transport_close R w2) as [[[]|e'] w3]; eauto.
Qed.

(** For a route that reads and renders, the handler begins with its first
    bridge call once the guard, if any, has passed. *)
Lemma read_route_unfold (r : route) (req : request) (tool : string)
  (params : pyval) :
  read_call r = Some (tool, params) ->
  (guarded r = true -> no_token (field "token" (cookies req)) = false) ->
  exists k,
    handle R r req
    = bind (mcp_call W R (field "token" (cookies req)) tool params)
        (fun details =>
           bind (lift (reply_contains "error" details))
             (fun failed : bool =>
                if failed then ret (error_view details) else k details)).
Proof.
  intros Hr Hg.
  destruct r; cbn in Hr; try discriminate; injection Hr as <- <-;
    cbn [handle]; unfold list_tools, home, event, scoreboard, challenge;
    cbv zeta; try rewrite (Hg eq_refl); eexists; reflexivity.
Qed.

(** A reply that is a record with the key [error] goes to the error view,
    as it came, and the handler calls nothing more: the challenge route
    does not ask for the download link. *)
Theorem error_reply_goes_to_error_view (r : route) (req : request)
  (tool : string) (params : pyval) (s s1 : state W) (d : assoc pyval) :
  read_call r = Some (tool, params) ->
  (guarded r = true -> no_token (field "token" (cookies req)) = false) ->
  mcp_call W R (field "token" (cookies req)) tool params s
  = (Ok (Data (PDict d)), s1) ->
  has_key (SStr "error") (keys d) = true ->
  handle R r req s
  = (Ok (Template "error.html" [("error", TReply (Data (PDict d)))]), s1).
Proof.
  intros Hr Hg Hcall Herr.
  destruct (read_route_unfold r req tool params Hr Hg) as (k & ->).
  unfold bind, lift. rewrite Hcall. cbn [reply_contains contains].
  now rewrite Herr.
Qed.

(** When the remote service cannot be reached, because the connection is
    refused or fails at the handshake, a route that reads and renders shows
    the error view; the fault reaches the bridge wrapped in an exception
    group, so the description shown is the message of the group. *)
Theorem unreachable_remote_shows_error_view (r : route) (req : request)
  (tool : string) (params : pyval) (s : state W) :
  read_call r = Some (tool, params) ->
  (guarded r = true -> no_token (field "token" (cookies req)) = false) ->
  (exists e w,
      transport_open R (bearer (field "token" (cookies req))) (world s)
      = (Raise e, w))
  \/ (exists w1 e w2,
        transport_open R (bearer (field "token" (cookies req))) (world s)
        = (Ok tt, w1)
        /\ session_initialize R w1 = (Raise e, w2)) ->
  fst (handle R r req s)
  = Ok (Template "error.html"
          [("error",
            TReply
              (Data (PDict [(SStr "error", PStr "exception");
                            (SStr "error_description",
                             PStr "unhandled errors in a TaskGroup (1 sub-exception)")])))]).
Proof.
  intros Hr Hg Hdown.
  destruct (read_route_unfold r req tool params Hr Hg) as (k & ->).
  destruct (mcp_call_unreachable _ tool params s Hdown) as (s1 & Hcall).
  unfold bind, lift. now rewrite Hcall.
Qed.

(** A reply that is [null], a boolean or a number has no [in]: the handler
    raises [TypeError] instead of rendering. *)
Theorem scalar_reply_raises_type_error (r : route) (req : request)
  (tool : string) (params : pyval) (s s1 : state W) (k : scalar) :
  read_call r = Some (tool, params) ->
  (guarded r = true -> no_token (field "token" (cookies req)) = false) ->
  mcp_call W R (field "token" (cookies req)) tool params s
  = (Ok (Data (PScalar k)), s1) ->
  is_str k = false ->
  handle R r req s
  = (Raise (Exn "TypeError"
              ("argument of type '" ++ type_name (PScalar k)
               ++ "' is not iterable")), s1).
Proof.
  intros Hr Hg Hcall Hk.
  destruct (read_route_unfold r req tool params Hr Hg) as (k' & ->).
  unfold bind, lift. rewrite Hcall. cbn [reply_contains].
  destruct k; try discriminate; reflexivity.
Qed.

(** The container and flag routes never raise: they make one bridge call
    and show the generic view with its reply, an error record included. *)
Theorem action_routes_always_render (r : route) (req : request)
  (tool : string) (params : pyval) (s : state W) :
  action_call r req = Some (tool, params) ->
  exists result s1,
    mcp_call W R (field "token" (cookies req)) tool params s = (Ok result, s1)
    /\ handle R r req s
       = (Ok (Template "generic.html" [("result", TReply result)]), s1)
    /\ calls s1
       = (calls s ++ [BridgeCall (field "token" (cookies req)) tool params])
           %list.
Proof.
  intro Hr.
  destruct (mcp_call_returns W R (field "token" (cookies req)) tool params s)
    as (result & s1 & Hcall & Hcalls).
  exists result, s1. split; [exact Hcall|]. split; [|exact Hcalls].
  destruct r; cbn in Hr; try discriminate; injection Hr as <- <-;
    cbn [handle]; unfold start_container, stop_container, submit_flag, bind;
    cbv zeta; now rewrite Hcall.
Qed.

(** [join] does not test the teams it gets.  When the reply is a record, as
    the error record of a failed retrieval is, [teams[0]] raises
    [KeyError]; when it is an empty list, [IndexError]; when its first item
    is no record, [.get] raises [AttributeError].  In each case the join
    call is never made. *)
Theorem join_fails_on_unusable_teams (event_id : Z) (req : request)
  (s s1 : state W) (teams : pyval) :
  mcp_call W R (field "token" (cookies req)) "retrieve_my_teams" PNone s
  = (Ok (Data teams), s1) ->
  (forall d, teams = PDict d -> forallb is_str (keys d) = true ->
             join W R event_id req s = (Raise (Exn "KeyError" "0"), s1))
  /\ (teams = PList [] ->
      join W R event_id req s
      = (Raise (Exn "IndexError" "list index out of range"), s1))
  /\ (forall first others,
        teams = PList (first :: others) -> is_record first = false ->
        join W R event_id req s
        = (Raise (Exn "AttributeError"
                    ("'" ++ type_name first
                     ++ "' object has no attribute 'get'")), s1)).
Proof.
  intro Hcall. split; [|split].
  - intros d -> Hkeys. unfold join, bind. rewrite Hcall. unfold lift.
    cbn [reply_getitem0 getitem0].
    assert (Hnone : lookup (SInt 0) d = None).
    { clear Hcall. induction d as [|[k v] d IH]; [reflexivity|].
      cbn in Hkeys. apply andb_true_iff in Hkeys as [Hk Hkeys].
      destruct k; try discriminate. cbn. now apply IH. }
    now rewrite Hnone.
  - intros ->. unfold join, bind. now rewrite Hcall.
  - intros first others -> Hrec. unfold join, bind. rewrite Hcall.
    unfold lift. cbn [reply_getitem0 getitem0].
    destruct first as [k|l|d]; [| |discriminate]; reflexivity.
Qed.

End HandlerEdges.

(** ** Further properties of the grouping *)

Lemma collect_app (l1 l2 : list pyval) :
  forall categories,
    collect categories (l1 ++ l2)
    = (categories1 <- collect categories l1 ;; collect categories1 l2)%result.
Proof.
  induction l1 as [|c l1 IH]; intro categories; cbn; [reflexivity|].
  destruct (add_challenge categories c); cbn; [apply IH | reflexivity].
Qed.

(** The loop stops at the first challenge it cannot file, a record without
    [challenge_category_id] or [difficulty] for one, and the grouping raises
    the fault of that challenge: nothing is grouped. *)
Theorem grouping_raises_on_first_malformed_challenge
  (good rest : list pyval) (c : pyval) (e : exn) :
  forallb well_formed good = true ->
  challenge_keys c = Raise e ->
  group_challenges (good ++ c :: rest) = Raise e.
Proof.
  intros Hgood Hc. unfold group_challenges. rewrite collect_app.
  destruct (collect_spec good [] Hgood) as (categories & Hcol & _).
  rewrite Hcol. cbn [rbind collect]. unfold add_challenge. now rewrite Hc.
Qed.

Lemma grouping_raises_on_first_malformed_challenge_witness :
  group_challenges
    (sample_challenges
     ++ PDict [(SStr "challenge_category_id", PInt 2)] :: sample_challenges)
  = Raise (Exn "KeyError" "'difficulty'")
  /\ group_challenges
       ([] ++ PDict [(SStr "challenge_category_id", PList []);
                     (SStr "difficulty", PStr "easy")] :: [])
     = Raise (Exn "TypeError" "unhashable type: 'list'").
Proof.
  split.
  - apply (grouping_raises_on_first_malformed_challenge sample_challenges
             sample_challenges); reflexivity.
  - apply (grouping_raises_on_first_malformed_challenge [] []); reflexivity.
Defined.

Lemma in_grouped_by_spec (challenges : list pyval) (cat_id : scalar)
  (label : string) :
  In cat_id (distinct (category_ids challenges)) ->
  In label difficulty_order ->
  bucket_of cat_id (SStr label) challenges <> [] ->
  bucket_in_view (grouped_by_spec challenges) cat_id (SStr label)
    (bucket_of cat_id (SStr label) challenges).
Proof.
  intros Hc Hl Hne.
  exists [(SStr "name", category_label cat_id);
          (SStr "difficulties",
           PDict (difficulties_by_spec
                    (fun kc kd => bucket_of kc kd challenges) cat_id))].
  eexists. split; [|split; [apply lookup_difficulties|]].
  - unfold grouped_by_spec.
    apply (in_map (fun k => (k, entry_by_spec _ k)) _ _ Hc).
  - unfold difficulties_by_spec.
    apply (in_map (fun d => (SStr d, PList (bucket_of cat_id (SStr d)
                                              challenges)))).
    unfold present_labels. apply filter_In. split; [exact Hl|].
    now destruct (bucket_of cat_id (SStr label) challenges).
Qed.

(** No challenge with one of the five difficulty labels is lost: it is in
    the bucket of its category and its label. *)
Theorem known_difficulty_is_shown (challenges : list pyval) (c : pyval)
  (kc kd : scalar) :
  forallb well_formed challenges = true ->
  In c challenges ->
  challenge_keys c = Ok (kc, kd) ->
  has_key kd (map SStr difficulty_order) = true ->
  exists grouped cat_id label bucket,
    group_challenges challenges = Ok (PDict grouped)
    /\ bucket_in_view grouped cat_id (SStr label) bucket
    /\ In c bucket
    /\ scalar_eqb kc cat_id = true
    /\ scalar_eqb kd (SStr label) = true.
Proof.
  intros Hwf Hin Hk Hknown.
  pose proof (in_bucket_has_category challenges c kc kd Hin Hk) as Hcat.
  assert (Hcat' : has_key kc (distinct (category_ids challenges)) = true).
  { unfold distinct. rewrite has_key_fold_add_key. now rewrite Hcat. }
  apply existsb_exists in Hcat' as (cat_id & Hcid & Ecat).
  apply existsb_exists in Hknown as (d & Hd & Ed).
  apply in_map_iff in Hd as (label & <- & Hl).
  rewrite scalar_eqb_sym in Ecat. rewrite scalar_eqb_sym in Ed.
  assert (Hc : In c (bucket_of cat_id (SStr label) challenges)).
  { apply filter_In. split; [exact Hin|].
    unfold in_bucket. now rewrite Hk, Ecat, Ed. }
  exists (grouped_by_spec challenges), cat_id, label,
    (bucket_of cat_id (SStr label) challenges).
  split; [now apply group_challenges_by_spec|].
  split; [|now repeat split].
  apply in_grouped_by_spec; try assumption.
  intro E. now rewrite E in Hc.
Qed.

Lemma known_difficulty_is_shown_witness :
  exists grouped cat_id label bucket,
    group_challenges sample_challenges = Ok (PDict grouped)
    /\ bucket_in_view grouped cat_id (SStr label) bucket
    /\ In (sample_challenge 5 2 "medium") bucket
    /\ scalar_eqb (SInt 2) cat_id = true
    /\ scalar_eqb (SStr "medium") (SStr label) = true.
Proof.
  apply (known_difficulty_is_shown sample_challenges
           (sample_challenge 5 2 "medium") (SInt 2) (SStr "medium")).
  - reflexivity.
  - cbn. tauto.
  - reflexivity.
  - reflexivity.
Defined.

(** Among distinct keys at most one equals a given key. *)
Lemma count_distinct {X} (key : X -> scalar) (k : scalar) :
  forall xs,
    distinctb (map key xs) = true ->
    List.length (filter (fun x => scalar_eqb k (key x)) xs)
    = if has_key k (map key xs) then 1%nat else 0%nat.
Proof.
  induction xs as [|x xs IH]; cbn [map distinctb filter]; [reflexivity|].
  intro Hd. apply andb_true_iff in Hd as [Hx Hd].
  apply negb_true_iff in Hx. specialize (IH Hd).
  unfold has_key in *. cbn [existsb].
  rewrite (scalar_eqb_sym (key x) k).
  destruct (scalar_eqb k (key x)) eqn:E; cbn [orb List.length].
  - rewrite IH.
    rewrite (scalar_eqb_sym k (key x)) in E.
    pose proof (has_key_congr _ _ (map key xs) E) as Hc.
    unfold has_key in Hc. now rewrite <- Hc, Hx.
  - exact IH.
Qed.

Lemma flat_map_singletons {I A} (p : I -> bool) (c : A) :
  forall idx,
    flat_map (fun i => if p i then [c] else []) idx
    = repeat c (List.length (filter p idx)).
Proof.
  induction idx as [|i idx IH]; cbn; [reflexivity|].
  rewrite IH. now destruct (p i).
Qed.

Lemma flat_map_app_perm {I A} (g f : I -> list A) :
  forall idx,
    Permutation (flat_map (fun i => g i ++ f i)%list idx)
      (flat_map g idx ++ flat_map f idx).
Proof.
  induction idx as [|i idx IH]; cbn; [constructor|].
  rewrite <- !app_assoc. apply Permutation_app_head.
  rewrite IH. apply Permutation_app_swap_app.
Qed.

Lemma flat_map_perm_ext {I A} (f g : I -> list A) :
  forall idx,
    (forall i, In i idx -> Permutation (f i) (g i)) ->
    Permutation (flat_map f idx) (flat_map g idx).
Proof.
  induction idx as [|i idx IH]; intro H; cbn; [constructor|].
  apply Permutation_app; [apply H; now left|].
  apply IH. intros j Hj. apply H. now right.
Qed.

(** Classes that every item falls into at most once partition a list. *)
Lemma partition_perm {I} (p : I -> pyval -> bool) (q : pyval -> bool)
  (idx : list I) :
  forall items,
    (forall c, In c items ->
               List.length (filter (fun i => p i c) idx)
               = if q c then 1%nat else 0%nat) ->
    Permutation (flat_map (fun i => filter (p i) items) idx) (filter q items).
Proof.
  induction items as [|c items IH]; intro H.
  - clear H. cbn. induction idx; cbn; [apply perm_nil | assumption].
  - assert (Hstep : flat_map (fun i => filter (p i) (c :: items)) idx
                    = flat_map (fun i => (if p i c then [c] else [])
                                         ++ filter (p i) items)%list idx).
    { apply flat_map_ext. intro i. cbn. now destruct (p i c). }
    rewrite Hstep, flat_map_app_perm, flat_map_singletons.
    rewrite (H c (or_introl eq_refl)). cbn [filter].
    assert (IH' := IH (fun c' Hc' => H c' (or_intror Hc'))).
    destruct (q c); cbn; [now constructor | exact IH'].
Qed.

Lemma flat_map_drop_empty {I A} (f : I -> list A) :
  forall idx,
    flat_map f (filter (fun i => nonempty (f i)) idx) = flat_map f idx.
Proof.
  induction idx as [|i idx IH]; cbn; [reflexivity|].
  destruct (f i) eqn:E; cbn; [exact IH|]. now rewrite E, IH.
Qed.

Lemma flat_map_of_map {I J A} (g : I -> J) (f : J -> list A) :
  forall idx, flat_map f (map g idx) = flat_map (fun i => f (g i)) idx.
Proof.
  induction idx as [|i idx IH]; cbn; [reflexivity | now rewrite IH].
Qed.

Lemma shown_grouped_by_spec (challenges : list pyval) :
  shown (grouped_by_spec challenges)
  = flat_map
      (fun cat_id =>
         flat_map (fun d => bucket_of cat_id (SStr d) challenges)
           difficulty_order)
      (distinct (category_ids challenges)).
Proof.
  unfold shown, grouped_by_spec. rewrite flat_map_of_map.
  apply flat_map_ext. intro cat_id.
  cbn [snd entry_by_spec]. rewrite lookup_difficulties.
  unfold difficulties_by_spec, present_labels.
  rewrite flat_map_of_map. cbn [snd].
  apply (flat_map_drop_empty
           (fun d => bucket_of cat_id (SStr d) challenges)).
Qed.

Lemma filter_none {A} (p : A -> bool) (l : list A) :
  (forall x, In x l -> p x = false) -> filter p l = [].
Proof.
  induction l as [|x l IH]; intro H; cbn; [reflexivity|].
  rewrite (H x (or_introl eq_refl)). apply IH. intros y Hy. apply H.
  now right.
Qed.

(** The grouped view model is a dictionary with distinct category ids, and
    the challenges it shows are those of the input that carry one of the
    five difficulty labels, each as often as it occurs there: the grouping
    neither invents nor repeats nor drops a challenge with a known
    difficulty. *)
Theorem grouping_shows_each_known_challenge_once (challenges : list pyval) :
  forallb well_formed challenges = true ->
  exists grouped,
    group_challenges challenges = Ok (PDict grouped)
    /\ distinctb (keys grouped) = true
    /\ Permutation (shown grouped) (filter known_difficulty challenges).
Proof.
  intro Hwf. exists (grouped_by_spec challenges).
  split; [now apply group_challenges_by_spec|]. split.
  - unfold grouped_by_spec, keys. rewrite map_map. cbn [fst]. rewrite map_id.
    apply distinctb_distinct.
  - rewrite shown_grouped_by_spec.
    transitivity
      (flat_map (fun cat_id =>
                   filter (fun c => in_category cat_id c && known_difficulty c)
                     challenges)
         (distinct (category_ids challenges))).
    + apply flat_map_perm_ext. intros cat_id _.
      unfold bucket_of.
      apply (partition_perm (fun d c => in_bucket cat_id (SStr d) c)).
      intros c Hc. unfold in_bucket, in_category, known_difficulty.
      destruct (challenge_keys c) as [[kc kd]|e] eqn:Hk.
      * destruct (scalar_eqb kc cat_id); cbn [andb].
        -- apply (count_distinct SStr kd difficulty_order).
           apply distinctb_difficulty_order.
        -- now rewrite filter_none.
      * now rewrite filter_none.
    + apply (partition_perm
               (fun cat_id c => in_category cat_id c && known_difficulty c)).
      intros c Hc. unfold in_category.
      destruct (challenge_keys c) as [[kc kd]|e] eqn:Hk.
      * destruct (known_difficulty c).
        -- rewrite (filter_ext _ (fun cat_id => scalar_eqb kc cat_id))
             by (intro; apply andb_true_r).
           rewrite (count_distinct (fun k => k) kc), map_id.
           ++ unfold distinct. rewrite has_key_fold_add_key.
              now rewrite (in_bucket_has_category challenges c kc kd Hc Hk).
           ++ rewrite map_id. apply distinctb_distinct.
        -- rewrite filter_none; [reflexivity|].
           intros; apply andb_false_r.
      * unfold known_difficulty. rewrite Hk. now rewrite filter_none.
Qed.

Lemma grouping_shows_each_known_challenge_once_witness :
  exists grouped,
    group_challenges sample_challenges = Ok (PDict grouped)
    /\ distinctb (keys grouped) = true
    /\ Permutation (shown grouped)
         (filter known_difficulty sample_challenges).
Proof.
  apply (grouping_shows_each_known_challenge_once sample_challenges).
  reflexivity.
Defined.

(** ** Further properties of the challenge scan *)

(** The scan stops at the first entry whose [id] equals the challenge id:
    what follows it in the list is never looked at, whatever it is. *)
Theorem scan_stops_at_first_match (chal_id : Z) (c : pyval)
  (after : list pyval) :
  forall before,
    forallb is_record before = true ->
    forallb (fun x => negb (has_id chal_id x)) before = true ->
    is_record c = true ->
    has_id chal_id c = true ->
    find_challenge chal_id (before ++ c :: after) = Ok c.
Proof.
  induction before as [|x before IH]; cbn [app forallb find_challenge].
  - intros _ _ Hrec Hid. destruct c as [k|l|d]; try discriminate.
    unfold has_id in Hid. cbn [get] in *.
    destruct (lookup (SStr "id") d); cbn [rbind]; now rewrite Hid.
  - intros Hr Hn Hrec Hid.
    apply andb_true_iff in Hr as [Hx Hr].
    apply andb_true_iff in Hn as [Hxn Hn].
    apply negb_true_iff in Hxn.
    destruct x as [k|l|d]; try discriminate.
    unfold has_id in Hxn. cbn [get] in *.
    destruct (lookup (SStr "id") d); cbn [rbind]; rewrite Hxn;
      now apply IH.
Qed.

Lemma scan_stops_at_first_match_witness :
  find_challenge 2
    ([sample_challenge 1 2 "medium"]
     ++ sample_challenge 2 3 "hard" :: [PNone; sample_challenge 2 9 "easy"])
  = Ok (sample_challenge 2 3 "hard").
Proof.
  apply (scan_stops_at_first_match 2 (sample_challenge 2 3 "hard")
           [PNone; sample_challenge 2 9 "easy"]
           [sample_challenge 1 2 "medium"]); reflexivity.
Defined.

(** An entry that is no record, met before any match, makes the scan raise
    [AttributeError]: only records have [.get]. *)
Theorem scan_raises_on_entry_without_get (chal_id : Z) (v : pyval)
  (after : list pyval) :
  forall before,
    forallb is_record before = true ->
    forallb (fun x => negb (has_id chal_id x)) before = true ->
    is_record v = false ->
    find_challenge chal_id (before ++ v :: after)
    = Raise (Exn "AttributeError"
               ("'" ++ type_name v ++ "' object has no attribute 'get'")).
Proof.
  induction before as [|x before IH]; cbn [app forallb find_challenge].
  - intros _ _ Hrec. destruct v as [k|l|d]; [| |discriminate]; reflexivity.
  - intros Hr Hn Hrec.
    apply andb_true_iff in Hr as [Hx Hr].
    apply andb_true_iff in Hn as [Hxn Hn].
    apply negb_true_iff in Hxn.
    destruct x as [k|l|d]; try discriminate.
    unfold has_id in Hxn. cbn [get] in *.
    destruct (lookup (SStr "id") d); cbn [rbind]; rewrite Hxn;
      now apply IH.
Qed.

Lemma scan_raises_on_entry_without_get_witness :
  find_challenge 7
    ([sample_challenge 1 2 "medium"] ++ PStr "locked" :: [])
  = Raise (Exn "AttributeError" "'str' object has no attribute 'get'").
Proof.
  apply (scan_raises_on_entry_without_get 7 (PStr "locked") []
           [sample_challenge 1 2 "medium"]); reflexivity.
Defined.

(** ** Further properties of the routes *)

Section Routes.

Variable W : Type.
Variable R : remote W.

(** A token posted to the login route is set as the [token] cookie, with
    nothing sent to the remote service, and a home request that brings the
    cookie back passes the guard and calls the bridge with that token; a
    missing or empty token sets no cookie. *)
Theorem login_cookie_reaches_the_bridge (req next : request) (t : string)
  (s s' : state W) :
  field "token" (form req) = Some t ->
  t <> "" ->
  field "token" (cookies next) = Some t ->
  login W req s = (Ok (Redirect "/" (Some ("token", t))), s)
  /\ calls (snd (home W R next s'))
     = (calls s' ++ [BridgeCall (Some t) "list_ctf_events" PNone])%list
  /\ forall blank,
       field "token" (form blank) = None
       \/ field "token" (form blank) = Some "" ->
       login W blank s = (Ok (Redirect "/login" None), s).
Proof.
  intros Hform Hne Hcookie. apply String.eqb_neq in Hne.
  split; [|split].
  - unfold login. now rewrite Hform, Hne.
  - unfold home. rewrite Hcookie. cbn [no_token]. rewrite Hne.
    unfold bind, lift.
    destruct (mcp_call_returns W R (Some t) "list_ctf_events" PNone s')
      as (events & s1 & Hcall & Hcalls).
    rewrite Hcall.
    now destruct (reply_contains "error" events) as [[|]|e].
  - intros blank [H|H]; unfold login; now rewrite H.
Qed.

(** The event route, once the details came back as a record without
    [error]: it renders the event view with the name of the event, or
    [None] when the record has none, and the grouping of the challenges;
    a fault of the grouping escapes the handler.  Details without
    [challenges] are shown with an empty grouping. *)
Theorem event_renders_name_and_grouping (event_id : Z) (req : request)
  (s s1 : state W) (d : assoc pyval) :
  mcp_call W R (field "token" (cookies req)) "retrieve_ctf"
    (PDict [(SStr "ctf_id", PInt event_id)]) s
  = (Ok (Data (PDict d)), s1) ->
  has_key (SStr "error") (keys d) = false ->
  let view grouped :=
    Template "event.html"
      [("event_name",
        TVal (match lookup (SStr "name") d with
              | Some name => name
              | None => PNone
              end));
       ("grouped", TVal grouped);
       ("difficulty_order", TVal (PList (map PStr difficulty_order)));
       ("event_id", TVal (PInt event_id))] in
  (forall items,
      lookup (SStr "challenges") d = Some (PList items) ->
      event W R event_id req s
      = (match group_challenges items with
         | Ok grouped => Ok (view grouped)
         | Raise e => Raise e
         end, s1))
  /\ (lookup (SStr "challenges") d = None ->
      event W R event_id req s = (Ok (view (PDict [])), s1))
  /\ (forall k,
        lookup (SStr "challenges") d = Some (PScalar k) ->
        is_str k = false ->
        event W R event_id req s
        = (Raise (Exn "TypeError"
                    ("'" ++ type_name (PScalar k)
                     ++ "' object is not iterable")), s1)).
Proof.
  intros Hcall Herr view.
  assert (Hrun : event W R event_id req s
                 = bind (lift (reply_get (Data (PDict d)) "challenges"
                                 (PList [])))
                     (fun challenges =>
                        bind (lift (iterate challenges))
                          (fun items =>
                             bind (lift (group_challenges items))
                               (fun grouped => ret (view grouped)))) s1).
  { unfold event. unfold bind at 1. rewrite Hcall.
    unfold bind at 1. unfold lift at 1.
    cbn [reply_contains contains]. rewrite Herr.
    unfold view, bind, lift, reply_get, get.
    destruct (lookup (SStr "challenges") d) as [challenges|];
      [destruct (iterate challenges) as [items|]; [|reflexivity]
      | cbn [iterate] ];
      destruct (group_challenges _); [|reflexivity| |reflexivity];
      now destruct (lookup (SStr "name") d). }
  rewrite Hrun. unfold bind, lift, reply_get, get.
  split; [|split].
  - intros items ->. cbn [iterate]. now destruct (group_challenges items).
  - intros ->. reflexivity.
  - intros k -> Hk. destruct k; try discriminate; reflexivity.
Qed.

(** The tools route with a token: when the session runs through, the names
    of the listed tools are returned as a JSON array, in the order of the
    listing. *)
Theorem tools_route_returns_the_listed_names (req : request) (s : state W)
  (w1 w2 w3 w4 : W) (names : list string) :
  no_token (field "token" (cookies req)) = false ->
  transport_open R (bearer (field "token" (cookies req))) (world s)
  = (Ok tt, w1) ->
  session_initialize R w1 = (Ok tt, w2) ->
  session_list_tools R w2 = (Ok names, w3) ->
  transport_close R w3 = (Ok tt, w4) ->
  fst (list_tools W R req s) = Ok (Json (PList (map PStr names)))
  /\ world (snd (list_tools W R req s)) = w4.
Proof.
  intros Htok H1 H2 H3 H4. unfold list_tools. rewrite Htok.
  unfold bind at 1. unfold mcp_call. bridge_unfold.
  cbn [truthy PNone String.eqb Ascii.eqb Bool.eqb].
  rewrite H1. cbn [world calls wire]. rewrite H2. cbn [world calls wire].
  rewrite H3. cbn [world calls wire]. rewrite H4. split; reflexivity.
Qed.

(** The home route shows a reply that is a list of records as the events:
    such a list holds no item equal to [error]. *)
Theorem home_renders_event_list (req : request) (s s1 : state W)
  (events : list pyval) :
  no_token (field "token" (cookies req)) = false ->
  mcp_call W R (field "token" (cookies req)) "list_ctf_events" PNone s
  = (Ok (Data (PList events)), s1) ->
  forallb is_record events = true ->
  home W R req s
  = (Ok (Template "index.html" [("events", TReply (Data (PList events)))]),
     s1).
Proof.
  intros Htok Hcall Hrec. unfold home. rewrite Htok.
  unfold bind, lift. rewrite Hcall. cbn [reply_contains contains].
  assert (Hno : existsb (fun x => py_eqb x (SStr "error")) events = false).
  { clear Hcall. induction events as [|x events IH]; [reflexivity|].
    cbn in Hrec. apply andb_true_iff in Hrec as [Hx Hrec].
    destruct x; try discriminate. cbn. now apply IH. }
  now rewrite Hno.
Qed.

End Routes.

(** ** The further properties on the sample remotes *)

Lemma session_is_opened_once_and_closed_witness :
  wire (snd (mcp_call nat unreachable_remote (Some "secret") "retrieve_ctf"
               PNone sample_state))
  = [WOpen "Bearer secret"]
  /\ exists mid,
      wire (snd (mcp_call nat sample_remote (Some "secret") "retrieve_ctf"
                   PNone sample_state))
      = ([] ++ WOpen "Bearer secret" :: WInitialize :: mid ++ [WClose])%list
      /\ forall ev, In ev mid ->
                    ev <> WClose /\ ev <> WInitialize
                    /\ forall a, ev <> WOpen a.
Proof.
  split.
  - apply (proj1 (session_is_opened_once_and_closed nat unreachable_remote
                    (Some "secret") "retrieve_ctf" PNone sample_state)
             (Exn "ConnectError" "All connection attempts failed") 0%nat).
    reflexivity.
  - apply (proj2 (session_is_opened_once_and_closed nat sample_remote
                    (Some "secret") "retrieve_ctf" PNone sample_state)
             0%nat).
    reflexivity.
Defined.

Lemma error_reply_goes_to_error_view_witness :
  handle (constant_remote (PDict [(SStr "error", PStr "not_found")]))
    (GetChallenge 5 3) sample_request sample_state
  = (Ok (Template "error.html"
           [("error",
             TReply (Data (PDict [(SStr "error", PStr "not_found")])))]),
     snd (mcp_call nat
            (constant_remote (PDict [(SStr "error", PStr "not_found")]))
            (Some "secret") "retrieve_ctf"
            (PDict [(SStr "ctf_id", PInt 5)]) sample_state)).
Proof.
  apply (error_reply_goes_to_error_view nat
           (constant_remote (PDict [(SStr "error", PStr "not_found")]))
           (GetChallenge 5 3) sample_request "retrieve_ctf"
           (PDict [(SStr "ctf_id", PInt 5)]) sample_state);
    reflexivity.
Defined.

Lemma unreachable_remote_shows_error_view_witness :
  fst (handle offline_remote GetHome sample_request sample_state)
  = Ok (Template "error.html"
          [("error",
            TReply
              (Data (PDict [(SStr "error", PStr "exception");
                            (SStr "error_description",
                             PStr "unhandled errors in a TaskGroup (1 sub-exception)")])))]).
Proof.
  apply (unreachable_remote_shows_error_view nat offline_remote GetHome
           sample_request "list_ctf_events" PNone sample_state);
    try reflexivity.
  right. exists 0%nat, (Exn "ConnectError" "All connection attempts failed"),
    0%nat. split; reflexivity.
Defined.

Lemma scalar_reply_raises_type_error_witness :
  handle (constant_remote PNone) (GetScoreboard 5) sample_request sample_state
  = (Raise (Exn "TypeError" "argument of type 'NoneType' is not iterable"),
     snd (mcp_call nat (constant_remote PNone) (Some "secret")
            "retrieve_ctf_scores" (PDict [(SStr "ctf_id", PInt 5)])
            sample_state)).
Proof.
  apply (scalar_reply_raises_type_error nat (constant_remote PNone)
           (GetScoreboard 5) sample_request "retrieve_ctf_scores"
           (PDict [(SStr "ctf_id", PInt 5)]) sample_state
           (snd (mcp_call nat (constant_remote PNone) (Some "secret")
                   "retrieve_ctf_scores" (PDict [(SStr "ctf_id", PInt 5)])
                   sample_state))
           SNone);
    reflexivity.
Defined.

Lemma action_routes_always_render_witness :
  exists result s1,
    mcp_call nat sample_remote (Some "secret") "submit_flag"
      (PDict [(SStr "challenge_id", PInt 3); (SStr "flag", PNone)])
      sample_state
    = (Ok result, s1)
    /\ handle sample_remote (PostSubmitFlag 3) sample_request sample_state
       = (Ok (Template "generic.html" [("result", TReply result)]), s1)
    /\ calls s1
       = [BridgeCall (Some "secret") "submit_flag"
            (PDict [(SStr "challenge_id", PInt 3); (SStr "flag", PNone)])].
Proof.
  apply (action_routes_always_render nat sample_remote (PostSubmitFlag 3)
           sample_request "submit_flag"
           (PDict [(SStr "challenge_id", PInt 3); (SStr "flag", PNone)])
           sample_state).
  reflexivity.
Defined.

Lemma join_fails_on_unusable_teams_witness :
  join nat unreachable_remote 5 sample_request sample_state
  = (Raise (Exn "KeyError" "0"),
     State 0%nat [BridgeCall (Some "secret") "retrieve_my_teams" PNone]
       [WOpen "Bearer secret"])
  /\ join nat (constant_remote (PList [])) 5 sample_request sample_state
     = (Raise (Exn "IndexError" "list index out of range"),
        snd (mcp_call nat (constant_remote (PList [])) (Some "secret")
               "retrieve_my_teams" PNone sample_state)).
Proof.
  split.
  - apply (proj1 (join_fails_on_unusable_teams nat unreachable_remote 5
                    sample_request sample_state _ _ eq_refl)
             _ eq_refl).
    reflexivity.
  - apply (proj1 (proj2 (join_fails_on_unusable_teams nat
                           (constant_remote (PList [])) 5 sample_request
                           sample_state _ _ eq_refl))).
    reflexivity.
Defined.

Lemma login_cookie_reaches_the_bridge_witness :
  login nat (Request [] [("token", "secret")]) sample_state
  = (Ok (Redirect "/" (Some ("token", "secret"))), sample_state)
  /\ calls (snd (home nat sample_remote sample_request sample_state))
     = [BridgeCall (Some "secret") "list_ctf_events" PNone]
  /\ forall blank,
       field "token" (form blank) = None
       \/ field "token" (form blank) = Some "" ->
       login nat blank sample_state
       = (Ok (Redirect "/login" None), sample_state).
Proof.
  apply (login_cookie_reaches_the_bridge nat sample_remote
           (Request [] [("token", "secret")]) sample_request "secret"
           sample_state sample_state); try reflexivity.
  discriminate.
Defined.

Lemma event_renders_name_and_grouping_witness :
  fst (event nat sample_remote 5 sample_request sample_state)
  = match group_challenges sample_challenges with
    | Ok grouped =>
        Ok (Template "event.html"
              [("event_name", TVal (PStr "Cyber Apocalypse"));
               ("grouped", TVal grouped);
               ("difficulty_order", TVal (PList (map PStr difficulty_order)));
               ("event_id", TVal (PInt 5))])
    | Raise e => Raise e
    end.
Proof.
  apply (f_equal fst
           (proj1 (event_renders_name_and_grouping nat sample_remote 5
                     sample_request sample_state _
                     [(SStr "name", PStr "Cyber Apocalypse");
                      (SStr "challenges", PList sample_challenges)]
                     eq_refl eq_refl)
              sample_challenges eq_refl)).
Defined.

Lemma tools_route_returns_the_listed_names_witness :
  fst (list_tools nat sample_remote sample_request sample_state)
  = Ok (Json (PList [PStr "retrieve_ctf"; PStr "submit_flag"]))
  /\ world (snd (list_tools nat sample_remote sample_request sample_state))
     = 1%nat.
Proof.
  apply (tools_route_returns_the_listed_names nat sample_remote
           sample_request sample_state 0%nat 0%nat 1%nat 1%nat
           ["retrieve_ctf"; "submit_flag"]); reflexivity.
Defined.

Lemma home_renders_event_list_witness :
  fst (home nat
         (constant_remote (PList [PDict [(SStr "id", PInt 5)]]))
         sample_request sample_state)
  = Ok (Template "index.html"
          [("events", TReply (Data (PList [PDict [(SStr "id", PInt 5)]])))]).
Proof.
  apply (f_equal fst
           (home_renders_event_list nat
              (constant_remote (PList [PDict [(SStr "id", PInt 5)]]))
              sample_request sample_state _
              [PDict [(SStr "id", PInt 5)]] eq_refl eq_refl eq_refl)).
Defined.

(** ** Tool responses without a text to parse *)

Section Content.

Variable W : Type.
Variable R : remote W.

(** A tool response whose content is empty, or whose first item is no text,
    is not parsed at all: [content[0].text] raises [IndexError] or
    [AttributeError] inside the two blocks, the session is closed, and the
    bridge returns the error record of the exception group that the fault
    leaves the blocks in. *)
Theorem response_without_text_becomes_error_record (token : option string)
  (tool : string) (params : pyval) (s : state W) (w1 w2 w3 : W)
  (items : list content) :
  tool <> "list_tools" ->
  transport_open R (bearer token) (world s) = (Ok tt, w1) ->
  session_initialize R w1 = (Ok tt, w2) ->
  session_call_tool R tool (if truthy params then params else PDict []) w2
  = (Ok items, w3) ->
  match items with
  | TextContent _ :: _ => True
  | _ =>
      (exists e, first_text items = Raise e)
      /\ fst (mcp_call W R token tool params s)
         = Ok (Data (PDict [(SStr "error", PStr "exception");
                            (SStr "error_description",
                             PStr "unhandled errors in a TaskGroup (1 sub-exception)")]))
      /\ wire (snd (mcp_call W R token tool params s))
         = (wire s ++ [WOpen (bearer token); WInitialize;
                       WCallTool tool
                         (if truthy params then params else PDict []);
                       WClose])%list
  end.
Proof.
  intros Hneq H1 H2 H3. apply String.eqb_neq in Hneq.
  assert (Hrun : forall e,
             first_text items = Raise e ->
             fst (mcp_call W R token tool params s)
             = Ok (Data (error_record (exception_group e)))
             /\ wire (snd (mcp_call W R token tool params s))
                = (wire s ++ [WOpen (bearer token); WInitialize;
                              WCallTool tool
                                (if truthy params then params else PDict []);
                              WClose])%list).
  { intros e He. unfold mcp_call. bridge_unfold. rewrite Hneq.
    rewrite H1. cbn [world calls wire]. rewrite H2. cbn [world calls wire].
    rewrite H3. cbn [world calls wire]. rewrite He.
    cbn [world calls wire].
    destruct (transport_close R w3) as [[[]|e'] w4]; cbn [fst snd wire];
      now rewrite <- !app_assoc. }
  destruct items as [|[text|cls] rest]; [|exact I|];
    (split; [eexists; reflexivity|]); exact (Hrun _ eq_refl).
Qed.

End Content.

Lemma response_without_text_becomes_error_record_witness :
  (exists e, first_text [] = Raise e)
  /\ fst (mcp_call nat sample_remote (Some "secret") "stop_container"
            (PDict [(SStr "challenge_id", PInt 3)]) sample_state)
     = Ok (Data (PDict [(SStr "error", PStr "exception");
                        (SStr "error_description",
                         PStr "unhandled errors in a TaskGroup (1 sub-exception)")]))
  /\ wire (snd (mcp_call nat sample_remote (Some "secret") "stop_container"
                  (PDict [(SStr "challenge_id", PInt 3)]) sample_state))
     = ([] ++ [WOpen "Bearer secret"; WInitialize;
               WCallTool "stop_container"
                 (PDict [(SStr "challenge_id", PInt 3)]);
               WClose])%list.
Proof.
  apply (response_without_text_becomes_error_record nat sample_remote
           (Some "secret") "stop_container"
           (PDict [(SStr "challenge_id", PInt 3)]) sample_state
           0%nat 0%nat 1%nat []); try reflexivity.
  discriminate.
Defined.
